(** * Malta Business Indexer: the front end's fetch hooks, list views and
      distance calculator, embedded from the JavaScript sources.

    JavaScript numbers are IEEE-754 binary64 values, modelled by Rocq's
    primitive [float] with the primitive arithmetic.  What the ECMAScript
    standard leaves to the engine ([Math.sin], [Math.cos], [Math.atan2],
    [Math.round], [parseFloat], [parseInt], number printing) is gathered in
    the class [Engine]; the hooks' asynchronous operations are split at their
    [await] into the part that runs before the request is issued and the
    continuation that runs when it settles. *)

From Stdlib Require Import ZArith List String Ascii Bool Lia Floats.
From Stdlib Require Import DecimalString.
Import ListNotations.
Open Scope string_scope.
Set Warnings "-inexact-float".

(** * Part I: the embedding *)

(** ** Binary64 helpers *)

Module F64.

(** [Math.PI], the binary64 nearest to pi. *)
Definition Math_PI : float := 0x1.921fb54442d18p+1%float.

(** [Math.sqrt] is the IEEE-754 square root. *)
Definition Math_sqrt (x : float) : float := PrimFloat.sqrt x.

(** A zero or a value with a mantissa: neither NaN nor an infinity. *)
Definition finite_sf (x : spec_float) : bool :=
  match x with
  | S754_zero _ | S754_finite _ _ _ => true
  | _ => false
  end.

Definition finite (x : float) : bool := finite_sf (Prim2SF x).

(** Magnitude at most one, the range of a cosine. *)
Definition unit_range (x : float) : bool := (abs x <=? 1)%float.

(** The exponent of a finite value is at most [B]. *)
Definition exp_le_sf (B : Z) (x : spec_float) : Prop :=
  match x with
  | S754_zero _ => True
  | S754_finite _ _ e => (e <= B)%Z
  | _ => False
  end.

Definition exp_le (B : Z) (x : float) : Prop := exp_le_sf B (Prim2SF x).

End F64.

(** ** JavaScript values and plain objects *)

Module Js.

(** The primitive values: what filter fields, offsets and coordinates hold. *)
Inductive value : Type :=
  | Undefined
  | Null
  | Bool (b : bool)
  | Num (x : float)
  | Str (s : string).

Definition is_empty (s : string) : bool :=
  match s with
  | EmptyString => true
  | String _ _ => false
  end.

(** ToBoolean. *)
Definition truthy (v : value) : bool :=
  match v with
  | Undefined | Null => false
  | Bool b => b
  | Num x => negb (PrimFloat.is_zero x || PrimFloat.is_nan x)
  | Str s => negb (is_empty s)
  end.

(** [a || b]. *)
Definition or (a b : value) : value := if truthy a then a else b.

(** [a === b]. *)
Definition strict_eq (a b : value) : bool :=
  match a, b with
  | Undefined, Undefined => true
  | Null, Null => true
  | Bool x, Bool y => Bool.eqb x y
  | Num x, Num y => (x =? y)%float
  | Str x, Str y => String.eqb x y
  | _, _ => false
  end.

(** A value that stands for "no filter": undefined, null or the empty string. *)
Definition absent (v : value) : bool :=
  strict_eq v Null || strict_eq v Undefined || strict_eq v (Str EmptyString).

(** An object literal with string keys, in insertion order
    (the order of [Object.entries]). *)
Definition object : Type := list (string * value).

Fixpoint get (o : object) (k : string) : value :=
  match o with
  | [] => Undefined
  | (k', v) :: o' => if String.eqb k k' then v else get o' k
  end.

(** [o[k] = v]: an existing key keeps its position, a new one goes last.
    This is JavaScript's order for keys that are not integer-like, as all
    keys written in this code are; an integer-like key (["7"]) would be
    listed before them. *)
Fixpoint set (o : object) (k : string) (v : value) : object :=
  match o with
  | [] => [(k, v)]
  | (k', v') :: o' =>
      if String.eqb k k' then (k', v) :: o' else (k', v') :: set o' k v
  end.

(** [delete o[k]]. *)
Fixpoint delete (o : object) (k : string) : object :=
  match o with
  | [] => []
  | (k', v') :: o' =>
      if String.eqb k k' then o' else (k', v') :: delete o' k
  end.

Definition keys (o : object) : list string := map fst o.

(** [{...target, ...src}]. *)
Definition spread (target src : object) : object :=
  fold_left (fun o kv => set o (fst kv) (snd kv)) src target.

(** An [Error] object; [message] is always a string. *)
Record error : Type := Error { message : string }.

(** How a promise settles. *)
Inductive settled (A : Type) : Type :=
  | Resolved (result : A)
  | Rejected (err : error).

Arguments Resolved {A} result.
Arguments Rejected {A} err.

(** [s || fallback] on strings. *)
Definition or_string (s fallback : string) : string :=
  if is_empty s then fallback else s.

End Js.

(** ** The engine interface *)

Class Engine : Type := {
  Math_sin : float -> float;
  Math_cos : float -> float;
  Math_atan2 : float -> float -> float;
  Math_round : float -> float;
  parseFloat : Js.value -> float;
  parseInt : Js.value -> float;
  Number_toString : float -> string
}.

(** [value.toString()] on a boolean, number or string. *)
Definition toString `{Engine} (v : Js.value) : string :=
  match v with
  | Js.Undefined => "undefined"
  | Js.Null => "null"
  | Js.Bool true => "true"
  | Js.Bool false => "false"
  | Js.Num x => Number_toString x
  | Js.Str s => s
  end.

(** An engine with crude stand-ins for the numeric functions.  It meets every
    assumption made on engines below, so those assumptions are consistent. *)
Definition stub_engine : Engine := {|
  Math_sin := fun x => x;
  Math_cos := fun _ => 1%float;
  Math_atan2 := fun y _ => y;
  Math_round := fun x => x;
  parseFloat := fun v => match v with Js.Num x => x | _ => nan end;
  parseInt := fun v => match v with Js.Num x => x | _ => nan end;
  Number_toString := fun _ => "0"
|}.

(** An engine whose sine and cosine are the correctly rounded ones at the
    arguments the near-antipodal pair (0.08, 0), (-0.08, 180) leads to, and
    whose [Math.atan2] gives NaN for a NaN argument, as ECMAScript requires.
    [0x1.6e05a695f8191p-10] is 0.08 degrees in radians and
    [0x1.921fb54442d18p+0] is the binary64 number nearest to pi / 2. *)
Definition rounded_engine : Engine := {|
  Math_sin := fun x =>
    if (x =? - 0x1.6e05a695f8191p-10)%float then (- 0x1.6e059ecaa87dcp-10)%float
    else if (x =? 0x1.921fb54442d18p+0)%float then 1%float
    else x;
  Math_cos := fun x =>
    if (abs x =? 0x1.6e05a695f8191p-10)%float then 0x1.ffffdf4abdd1ep-1%float
    else 1%float;
  Math_atan2 := fun y x => if is_nan y || is_nan x then nan else y;
  Math_round := fun x => x;
  parseFloat := fun v => match v with Js.Num x => x | _ => nan end;
  parseInt := fun v => match v with Js.Num x => x | _ => nan end;
  Number_toString := fun _ => "0"
|}.

(** ** A state monad for the hooks' setters *)

Definition M (S A : Type) : Type := S -> A * S.

Definition ret {S A : Type} (a : A) : M S A := fun s => (a, s).

Definition bind {S A B : Type} (m : M S A) (k : A -> M S B) : M S B :=
  fun s => let (a, s') := m s in k a s'.

Definition exec {S A : Type} (m : M S A) (s : S) : S := snd (m s).

Definition eval {S A : Type} (m : M S A) (s : S) : A := fst (m s).

Declare Scope hook_scope.
Delimit Scope hook_scope with hook.
Notation "x <- m ;; k" := (bind m (fun x => k))
  (at level 61, m at next level, right associativity) : hook_scope.
Notation "m ;; k" := (bind m (fun _ => k))
  (at level 61, right associativity) : hook_scope.
Open Scope hook_scope.

(** ** Records shown by the application *)

(** A business or store as the views and hooks use it.  Coordinates arrive
    as numbers or decimal strings, hence the [parseFloat] at their uses. *)
Record business : Type := Business {
  id : Z;
  name : string;
  latitude : Js.value;
  longitude : Js.value
}.

Definition ids (l : list business) : list Z := map id l.

(** A position as the geolocation code resolves it. *)
Record position : Type := MkPosition {
  lat : float;
  lng : float;
  accuracy : float
}.

(** What [navigator.geolocation] does with a request: the browser has no
    geolocation object, it calls the success callback with coordinates, or it
    calls the error callback with a [GeolocationPositionError] code. *)
Inductive geo_event : Type :=
  | Unsupported
  | Position (coords : position)
  | PositionError (code : Z).

(** The constants of [GeolocationPositionError]. *)
Definition PERMISSION_DENIED : Z := 1.
Definition POSITION_UNAVAILABLE : Z := 2.
Definition TIMEOUT : Z := 3.

(** The four failure kinds of the platform. *)
Inductive failure_kind : Type :=
  | PermissionDenied
  | PositionUnavailable
  | TimedOut
  | UnknownFailure.

Definition kind_of_code (code : Z) : failure_kind :=
  if (code =? PERMISSION_DENIED)%Z then PermissionDenied
  else if (code =? POSITION_UNAVAILABLE)%Z then PositionUnavailable
  else if (code =? TIMEOUT)%Z then TimedOut
  else UnknownFailure.

(** ** services/googleMaps.js *)

Module GoogleMapsService.
Section WithEngine.
Context `{Engine}.
Open Scope float_scope.

Definition calculateDistance (lat1 lng1 lat2 lng2 : float) : float :=
  let R := 6371000 in
  let phi1 := lat1 * F64.Math_PI / 180 in
  let phi2 := lat2 * F64.Math_PI / 180 in
  let deltaPhi := (lat2 - lat1) * F64.Math_PI / 180 in
  let deltaLambda := (lng2 - lng1) * F64.Math_PI / 180 in
  let a := Math_sin (deltaPhi / 2) * Math_sin (deltaPhi / 2) +
           Math_cos phi1 * Math_cos phi2 *
           Math_sin (deltaLambda / 2) * Math_sin (deltaLambda / 2) in
  let c := 2 * Math_atan2 (F64.Math_sqrt a) (F64.Math_sqrt (1 - a)) in
  Math_round (R * c).

End WithEngine.

(** The [switch (error.code)] of the error callback. *)
Definition errorMessage (code : Z) : string :=
  if (code =? PERMISSION_DENIED)%Z then
    "Location access denied. Please enable location services."
  else if (code =? POSITION_UNAVAILABLE)%Z then
    "Location information is unavailable."
  else if (code =? TIMEOUT)%Z then
    "Location request timed out."
  else
    "An unknown error occurred while retrieving location.".

Definition getCurrentLocation (ev : geo_event) : Js.settled position :=
  match ev with
  | Unsupported =>
      Js.Rejected (Js.Error "Geolocation is not supported by this browser.")
  | Position coords => Js.Resolved coords
  | PositionError code => Js.Rejected (Js.Error (errorMessage code))
  end.

End GoogleMapsService.

(** ** services/mockGoogleMaps.js *)

Module MockGoogleMapsService.
Section WithEngine.
Context `{Engine}.
Open Scope float_scope.

Definition calculateDistance (lat1 lng1 lat2 lng2 : float) : float :=
  let R := 6371000 in
  let phi1 := lat1 * F64.Math_PI / 180 in
  let phi2 := lat2 * F64.Math_PI / 180 in
  let deltaPhi := (lat2 - lat1) * F64.Math_PI / 180 in
  let deltaLambda := (lng2 - lng1) * F64.Math_PI / 180 in
  let a := Math_sin (deltaPhi / 2) * Math_sin (deltaPhi / 2) +
           Math_cos phi1 * Math_cos phi2 *
           Math_sin (deltaLambda / 2) * Math_sin (deltaLambda / 2) in
  let c := 2 * Math_atan2 (F64.Math_sqrt a) (F64.Math_sqrt (1 - a)) in
  R * c.

End WithEngine.
End MockGoogleMapsService.

(** The coordinate ranges of the data model. *)
Definition valid_lat (x : float) : bool := ((-90 <=? x) && (x <=? 90))%float.
Definition valid_lng (x : float) : bool := ((-180 <=? x) && (x <=? 180))%float.

(** ** hooks/useGeolocation *)

Module UseGeolocation.

Record state : Type := State {
  location : option position;
  loading : bool;
  error : option string
}.

(** [useState(null)], [useState(false)], [useState(null)]. *)
Definition initial : state := State None false None.

Definition setLocation (l : option position) : M state unit :=
  fun st => (tt, State l (loading st) (error st)).
Definition setLoading (b : bool) : M state unit :=
  fun st => (tt, State (location st) b (error st)).
Definition setError (e : option string) : M state unit :=
  fun st => (tt, State (location st) (loading st) e).

(** The [switch (error.code)] inside the hook's own promise. *)
Definition errorMessage (code : Z) : string :=
  if (code =? PERMISSION_DENIED)%Z then "Location access denied by user"
  else if (code =? POSITION_UNAVAILABLE)%Z then "Location information unavailable"
  else if (code =? TIMEOUT)%Z then "Location request timed out"
  else "Unknown geolocation error".

(** The promise the hook awaits, with the throw for a missing
    [navigator.geolocation]. *)
Definition locate (ev : geo_event) : Js.settled position :=
  match ev with
  | Unsupported => Js.Rejected (Js.Error "Geolocation is not supported by this browser")
  | Position coords => Js.Resolved coords
  | PositionError code => Js.Rejected (Js.Error (errorMessage code))
  end.

Definition getCurrentLocation_begin : M state unit :=
  setLoading true ;; setError None.

(** [try { setLocation(position) } catch { setError; setLocation(null) }
    finally { setLoading(false) }]. *)
Definition getCurrentLocation_settle (r : Js.settled position) : M state unit :=
  match r with
  | Js.Resolved position => setLocation (Some position)
  | Js.Rejected err => setError (Some (Js.message err)) ;; setLocation None
  end ;;
  setLoading false.

(** The hook with its inline promise. *)
Definition getCurrentLocation (ev : geo_event) : M state unit :=
  getCurrentLocation_begin ;; getCurrentLocation_settle (locate ev).

(** The variant that awaits [googleMapsService.getCurrentLocation()]. *)
Definition getCurrentLocation_service (ev : geo_event) : M state unit :=
  getCurrentLocation_begin ;;
  getCurrentLocation_settle (GoogleMapsService.getCurrentLocation ev).

Definition clearLocation : M state unit :=
  setLocation None ;; setError None.

End UseGeolocation.

(** ** hooks/useStores.js *)

Module UseStores.

(** What [apiService.getAllStores] and [apiService.searchStores] resolve to. *)
Record result : Type := Result {
  result_stores : list business;
  result_total : Z;
  result_has_more : bool
}.

Record state : Type := State {
  stores : list business;
  loading : bool;
  error : option string;
  total : Z;
  hasMore : bool
}.

Definition initial : state := State [] false None 0 false.

Definition setStores (l : list business) : M state unit :=
  fun st => (tt, State l (loading st) (error st) (total st) (hasMore st)).
Definition setLoading (b : bool) : M state unit :=
  fun st => (tt, State (stores st) b (error st) (total st) (hasMore st)).
Definition setError (e : option string) : M state unit :=
  fun st => (tt, State (stores st) (loading st) e (total st) (hasMore st)).
Definition setTotal (n : Z) : M state unit :=
  fun st => (tt, State (stores st) (loading st) (error st) n (hasMore st)).
Definition setHasMore (b : bool) : M state unit :=
  fun st => (tt, State (stores st) (loading st) (error st) (total st) b).

(** The two statements before the [try]. *)
Definition begin : M state unit := setLoading true ;; setError None.

Definition fetchStores_settle (r : Js.settled result) : M state unit :=
  match r with
  | Js.Resolved result =>
      setStores (result_stores result) ;;
      setTotal (result_total result) ;;
      setHasMore (result_has_more result)
  | Js.Rejected err =>
      setError (Some (Js.or_string (Js.message err) "Failed to fetch stores")) ;;
      setStores []
  end ;;
  setLoading false.

Definition fetchStores (params : Js.object) (r : Js.settled result) : M state unit :=
  begin ;; fetchStores_settle r.

Definition searchStores_settle (r : Js.settled result) : M state unit :=
  match r with
  | Js.Resolved result =>
      setStores (result_stores result) ;;
      setTotal (result_total result) ;;
      setHasMore (result_has_more result)
  | Js.Rejected err =>
      setError (Some (Js.or_string (Js.message err) "Failed to search stores")) ;;
      setStores []
  end ;;
  setLoading false.

Definition searchStores (searchParams : Js.object) (r : Js.settled result)
  : M state unit :=
  begin ;; searchStores_settle r.

Definition getNearbyStores_settle (r : Js.settled (list business)) : M state unit :=
  match r with
  | Js.Resolved result =>
      setStores result ;;
      setTotal (Z.of_nat (List.length result)) ;;
      setHasMore false
  | Js.Rejected err =>
      setError (Some (Js.or_string (Js.message err) "Failed to fetch nearby stores")) ;;
      setStores []
  end ;;
  setLoading false.

Definition getNearbyStores (latitude longitude radius limit : Js.value)
  (r : Js.settled (list business)) : M state unit :=
  begin ;; getNearbyStores_settle r.

End UseStores.

(** ** The [fetch] API as the business hook sees it *)

(** A response with its status and the outcome of [response.json()]. *)
Record response (A : Type) : Type := Response {
  status : Z;
  json : Js.settled A
}.

Arguments Response {A} status json.
Arguments status {A} r.
Arguments json {A} r.

(** [response.ok]: the status is in the range 200-299. *)
Definition ok {A : Type} (r : response A) : bool :=
  ((200 <=? status r) && (status r <=? 299))%Z.

(** [fetch] rejects (no response) or resolves with a response. *)
Inductive fetched (A : Type) : Type :=
  | NetworkError (err : Js.error)
  | Answered (r : response A).

Arguments NetworkError {A} err.
Arguments Answered {A} r.

(** Decimal text of an integer, as a template literal prints a status. *)
Definition decimal (n : Z) : string := NilZero.string_of_int (Z.to_int n).

(** The [await fetch], the [response.ok] check with its [throw] and the
    [await response.json()]: the data read, or the error the [catch] gets. *)
Definition read {A : Type} (failure : string) (f : fetched A) : Js.settled A :=
  match f with
  | NetworkError err => Js.Rejected err
  | Answered r =>
      if negb (ok r) then Js.Rejected (Js.Error (failure ++ decimal (status r)))
      else json r
  end.

(** ** hooks/useBusinesses.js *)

Module UseBusinesses.

Record category : Type := Category {
  key : string;
  category_name : string;
  icon : string;
  count : Z
}.

(** The body of [GET /api/businesses]; a field the server left out is [None]. *)
Record body : Type := Body {
  body_businesses : option (list business);
  body_total : option Z;
  body_has_more : option bool
}.

Record state : Type := State {
  businesses : list business;
  categories : list category;
  loading : bool;
  error : option string;
  total : Z;
  hasMore : bool
}.

Definition initial : state := State [] [] false None 0 false.

(** [setBusinesses], also in its functional form [setBusinesses(prev => ...)]. *)
Definition updateBusinesses (f : list business -> list business) : M state unit :=
  fun st => (tt, State (f (businesses st)) (categories st) (loading st)
                   (error st) (total st) (hasMore st)).
Definition setBusinesses (l : list business) : M state unit :=
  updateBusinesses (fun _ => l).
Definition setCategories (l : list category) : M state unit :=
  fun st => (tt, State (businesses st) l (loading st) (error st) (total st) (hasMore st)).
Definition setLoading (b : bool) : M state unit :=
  fun st => (tt, State (businesses st) (categories st) b (error st) (total st) (hasMore st)).
Definition setError (e : option string) : M state unit :=
  fun st => (tt, State (businesses st) (categories st) (loading st) e (total st) (hasMore st)).
Definition setTotal (n : Z) : M state unit :=
  fun st => (tt, State (businesses st) (categories st) (loading st) (error st) n (hasMore st)).
Definition setHasMore (b : bool) : M state unit :=
  fun st => (tt, State (businesses st) (categories st) (loading st) (error st) (total st) b).

(** [x || d] for a field that may be missing. *)
Definition or_default {A : Type} (x : option A) (d : A) : A :=
  match x with
  | Some a => a
  | None => d
  end.

(** The contents of a [URLSearchParams], in order of [append]. *)
Definition query : Type := list (string * string).

Section WithEngine.
Context `{Engine}.

Definition is_coordinate (key : string) : bool :=
  String.eqb key "latitude" || String.eqb key "longitude".

(** The body of the [forEach] over [Object.entries(params)]. *)
Definition appendEntry (queryParams : query) (entry : string * Js.value) : query :=
  let (key, value) := entry in
  if is_coordinate key then
    let num := parseFloat value in
    if negb (PrimFloat.is_nan num) then (queryParams ++ [(key, Number_toString num)])%list
    else queryParams
  else if negb (Js.strict_eq value Js.Null) &&
          negb (Js.strict_eq value Js.Undefined) &&
          negb (Js.strict_eq value (Js.Str EmptyString)) then
    (queryParams ++ [(key, toString value)])%list
  else queryParams.

Definition queryParams (params : Js.object) : query :=
  fold_left appendEntry params [].

(** Up to the [await fetch]: the two setters, and the query that is sent. *)
Definition fetchBusinesses_begin (params : Js.object) : M state query :=
  setLoading true ;;
  setError None ;;
  ret (queryParams params).

End WithEngine.

(** [params.offset === 0 || !params.offset]. *)
Definition replaces (params : Js.object) : bool :=
  Js.strict_eq (Js.get params "offset") (Js.Num 0) ||
  negb (Js.truthy (Js.get params "offset")).

(** What the [catch] returns. *)
Definition empty_body : body := Body (Some []) (Some 0%Z) (Some false).

(** From the settled request to the end of the [finally]. *)
Definition fetchBusinesses_settle (params : Js.object) (f : fetched body)
  : M state body :=
  r <- match read "Failed to fetch businesses: " f with
       | Js.Resolved data =>
           (if replaces params then
              setBusinesses (or_default (body_businesses data) [])
            else
              updateBusinesses
                (fun prev => (prev ++ or_default (body_businesses data) [])%list)) ;;
           setTotal (or_default (body_total data) 0%Z) ;;
           setHasMore (or_default (body_has_more data) false) ;;
           ret data
       | Js.Rejected err =>
           setError (Some (Js.message err)) ;;
           ret empty_body
       end ;;
  setLoading false ;;
  ret r.

Section WithEngine.
Context `{Engine}.

Definition fetchBusinesses (params : Js.object) (f : fetched body) : M state body :=
  fetchBusinesses_begin params ;; fetchBusinesses_settle params f.

(** [{ offset: 0, limit: 50, ...searchParams }]. *)
Definition searchBusinesses_params (searchParams : Js.object) : Js.object :=
  Js.spread [("offset", Js.Num 0); ("limit", Js.Num 50)] searchParams.

Definition searchBusinesses (searchParams : Js.object) (f : fetched body)
  : M state body :=
  fetchBusinesses (searchBusinesses_params searchParams) f.

(** The parameters built by [getNearbyBusinesses(lat, lng, radius = 5,
    category = null)]; a default applies to an undefined argument. *)
Definition getNearbyBusinesses_params (lat lng radius category : Js.value)
  : Js.object :=
  let radius := if Js.strict_eq radius Js.Undefined then Js.Num 5 else radius in
  let category := if Js.strict_eq category Js.Undefined then Js.Null else category in
  let params := [("latitude", lat); ("longitude", lng); ("radius", radius);
                 ("limit", Js.Num 100); ("offset", Js.Num 0)] in
  if Js.truthy category then Js.set params "category" category else params.

Definition getNearbyBusinesses (lat lng radius category : Js.value)
  (f : fetched body) : M state body :=
  fetchBusinesses (getNearbyBusinesses_params lat lng radius category) f.

End WithEngine.

(** [fetchCategories]: only [setError(null)] before the request. *)
Definition fetchCategories_begin : M state unit := setError None.

Definition fetchCategories_settle (f : fetched (option (list category)))
  : M state (option (list category)) :=
  match read "Failed to fetch categories: " f with
  | Js.Resolved data_categories =>
      setCategories (or_default data_categories []) ;;
      ret data_categories
  | Js.Rejected err =>
      setError (Some (Js.message err)) ;;
      ret (Some [])
  end.

Definition fetchCategories (f : fetched (option (list category)))
  : M state (option (list category)) :=
  fetchCategories_begin ;; fetchCategories_settle f.

(** [refreshBusinesses]: only [setError(null)] before the request.  On success
    it hands back the data with the parameters of the fetch it schedules for
    two seconds later; on failure it stores the message and rethrows. *)
Definition refreshBusinesses_begin : M state unit := setError None.

Definition refreshBusinesses_settle {A : Type} (category : Js.value) (f : fetched A)
  : M state (Js.settled (A * Js.object)) :=
  match read "Failed to refresh businesses: " f with
  | Js.Resolved data =>
      ret (Js.Resolved
             (data, [("category", category); ("limit", Js.Num 50);
                     ("offset", Js.Num 0)]))
  | Js.Rejected err =>
      setError (Some (Js.message err)) ;;
      ret (Js.Rejected err)
  end.

(** [getBusinessStats] touches no state. *)
Definition getBusinessStats {A : Type} (f : fetched A) : M state (Js.settled A) :=
  ret (read "Failed to fetch business stats: " f).

End UseBusinesses.

(** ** components/BusinessList.js and components/StoreList.js *)

(** What a list component puts on the screen. [Items] carries the rows and,
    when there is a "load more" button, whether it is disabled. *)
Inductive content : Type :=
  | Loading
  | ErrorMessage (msg : string)
  | EmptyState
  | Items (rows : list business) (loadMore : option bool).

(** [if (error)]: the message when [error] is a non-empty string. *)
Definition shown_error (error : option string) : option string :=
  match error with
  | Some msg => if Js.is_empty msg then None else Some msg
  | None => None
  end.

Definition is_nil {A : Type} (l : list A) : bool :=
  match l with
  | [] => true
  | _ :: _ => false
  end.

Module BusinessList.

Record props : Type := Props {
  businesses : list business;
  loading : bool;
  error : option string;
  total : Z;
  hasMore : bool
}.

(** The three early [return]s and the list. *)
Definition render (p : props) : content :=
  if loading p && is_nil (businesses p) then Loading
  else match shown_error (error p) with
       | Some msg => ErrorMessage msg
       | None =>
           if negb (loading p) && is_nil (businesses p) then EmptyState
           else Items (businesses p)
                  (if hasMore p then Some (loading p) else None)
       end.

End BusinessList.

Module StoreList.

Record props : Type := Props {
  stores : list business;
  loading : bool;
  error : option string;
  total : Z;
  hasMore : bool;
  userLocation : option position
}.

(** The text next to the title. *)
Inductive count_label : Type :=
  | CountLoading
  | CountOf (shown : nat) (total : Z).

Record rendered : Type := Rendered {
  header_count : option count_label;
  body : content
}.

Definition render (p : props) : rendered :=
  match shown_error (error p) with
  | Some msg => Rendered None (ErrorMessage msg)
  | None =>
      Rendered
        (Some (if loading p then CountLoading
               else CountOf (List.length (stores p)) (total p)))
        (if loading p && is_nil (stores p) then Loading
         else if is_nil (stores p) then EmptyState
         else Items (stores p) (if hasMore p then Some (loading p) else None))
  end.

Section WithEngine.
Context `{Engine}.
Open Scope float_scope.

(** The component's own distance from the user to a store, in meters;
    [None] is the [null] of the guard. *)
Definition calculateDistance (userLocation : option position) (store : business)
  : option float :=
  match userLocation with
  | None => None
  | Some userLocation =>
      if negb (Js.truthy (latitude store)) || negb (Js.truthy (longitude store))
      then None
      else
        let R := 6371e3 in
        let phi1 := lat userLocation * F64.Math_PI / 180 in
        let phi2 := parseFloat (latitude store) * F64.Math_PI / 180 in
        let deltaPhi :=
          (parseFloat (latitude store) - lat userLocation) * F64.Math_PI / 180 in
        let deltaLambda :=
          (parseFloat (longitude store) - lng userLocation) * F64.Math_PI / 180 in
        let a := Math_sin (deltaPhi / 2) * Math_sin (deltaPhi / 2) +
                 Math_cos phi1 * Math_cos phi2 *
                 Math_sin (deltaLambda / 2) * Math_sin (deltaLambda / 2) in
        let c := 2 * Math_atan2 (F64.Math_sqrt a) (F64.Math_sqrt (1 - a)) in
        Some (R * c)
  end.

End WithEngine.
End StoreList.

(** ** components/SearchFilters.js *)

Module SearchFilters.

Record filters : Type := Filters {
  query : string;
  category : string;
  min_rating : string;
  max_price_level : string;
  radius : string;
  exclude_closed : bool
}.

Definition initial (activeCategory : string) : filters :=
  Filters EmptyString activeCategory EmptyString EmptyString "5000" true.

(** The [forEach] that deletes the keys whose value is [undefined]. *)
Definition deleteUndefined (searchParams : Js.object) : Js.object :=
  fold_left
    (fun o key =>
       if Js.strict_eq (Js.get o key) Js.Undefined then Js.delete o key else o)
    (Js.keys searchParams) searchParams.

Section WithEngine.
Context `{Engine}.

(** The object literal of the search effect. *)
Definition searchParams_literal (f : filters) : Js.object :=
  [("query", Js.or (Js.Str (query f)) Js.Undefined);
   ("category", Js.or (Js.Str (category f)) Js.Undefined);
   ("min_rating",
     if Js.truthy (Js.Str (min_rating f))
     then Js.Num (parseFloat (Js.Str (min_rating f))) else Js.Undefined);
   ("max_price_level",
     if Js.truthy (Js.Str (max_price_level f))
     then Js.Num (parseInt (Js.Str (max_price_level f))) else Js.Undefined);
   ("radius", Js.Num (parseInt (Js.Str (radius f)) / 1000)%float)].

(** What is handed to [onSearch]. *)
Definition searchParams (f : filters) : Js.object :=
  deleteUndefined (searchParams_literal f).

(** The argument of [onLocationSearch]. *)
Definition locationRadius (f : filters) : float := parseInt (Js.Str (radius f)).

End WithEngine.
End SearchFilters.

(** ** App.js *)

Module App.

(** The part of the component's state the handlers touch, with the list of
    queries sent to [/api/businesses] so far. *)
Record state : Type := State {
  businessHook : UseBusinesses.state;
  geolocationHook : UseGeolocation.state;
  mapCenter : float * float;
  mapZoom : float;
  activeCategory : string;
  sent : list UseBusinesses.query
}.

Definition initial : state :=
  State UseBusinesses.initial UseGeolocation.initial
        (35.8989%float, 14.5146%float) 12%float "grocery" [].

(** An operation of a hook runs on that hook's part of the state. *)
Definition inBusinesses {A : Type} (m : M UseBusinesses.state A) : M state A :=
  fun st =>
    let (a, b) := m (businessHook st) in
    (a, State b (geolocationHook st) (mapCenter st) (mapZoom st)
              (activeCategory st) (sent st)).

Definition inGeolocation {A : Type} (m : M UseGeolocation.state A) : M state A :=
  fun st =>
    let (a, g) := m (geolocationHook st) in
    (a, State (businessHook st) g (mapCenter st) (mapZoom st)
              (activeCategory st) (sent st)).

Definition setMapCenter (c : float * float) : M state unit :=
  fun st => (tt, State (businessHook st) (geolocationHook st) c (mapZoom st)
                   (activeCategory st) (sent st)).
Definition setMapZoom (z : float) : M state unit :=
  fun st => (tt, State (businessHook st) (geolocationHook st) (mapCenter st) z
                   (activeCategory st) (sent st)).
Definition setActiveCategory (c : string) : M state unit :=
  fun st => (tt, State (businessHook st) (geolocationHook st) (mapCenter st)
                   (mapZoom st) c (sent st)).

(** The network sees the query. *)
Definition send (q : UseBusinesses.query) : M state unit :=
  fun st => (tt, State (businessHook st) (geolocationHook st) (mapCenter st)
                   (mapZoom st) (activeCategory st) (sent st ++ [q])%list).

Section WithEngine.
Context `{Engine}.

Definition fetchBusinesses (params : Js.object) (f : fetched UseBusinesses.body)
  : M state UseBusinesses.body :=
  q <- inBusinesses (UseBusinesses.fetchBusinesses_begin params) ;;
  send q ;;
  inBusinesses (UseBusinesses.fetchBusinesses_settle params f).

Definition searchBusinesses (searchParams : Js.object)
  (f : fetched UseBusinesses.body) : M state UseBusinesses.body :=
  fetchBusinesses (UseBusinesses.searchBusinesses_params searchParams) f.

Definition getNearbyBusinesses (lat lng radius category : Js.value)
  (f : fetched UseBusinesses.body) : M state UseBusinesses.body :=
  fetchBusinesses (UseBusinesses.getNearbyBusinesses_params lat lng radius category) f.

(** [handleSearch]: [{ ...searchParams, category: activeCategory }]. *)
Definition handleSearch (activeCategory : string) (searchParams : Js.object)
  (f : fetched UseBusinesses.body) : M state unit :=
  let params := Js.set (Js.spread [] searchParams) "category" (Js.Str activeCategory) in
  searchBusinesses params f ;; ret tt.

(** [handleLocationSearch], closed over the [userLocation] and
    [activeCategory] of the render that created it.  [radius] is [None] when
    the argument is omitted.  Neither awaited call rejects, so the [catch] is
    never entered. *)
Definition handleLocationSearch (userLocation : option position)
  (activeCategory : string) (radius : option float)
  (ev : geo_event) (f : fetched UseBusinesses.body) : M state unit :=
  let radius := match radius with Some r => r | None => 5000%float end in
  inGeolocation (UseGeolocation.getCurrentLocation ev) ;;
  match userLocation with
  | Some userLocation =>
      let radiusKm := (radius / 1000)%float in
      getNearbyBusinesses (Js.Num (lat userLocation)) (Js.Num (lng userLocation))
        (Js.Num radiusKm) (Js.Str activeCategory) f ;;
      setMapCenter (lat userLocation, lng userLocation) ;;
      setMapZoom 14%float
  | None => ret tt
  end.

(** The handler as the render of state [st] creates it. *)
Definition rendered_handleLocationSearch (st : state) :=
  handleLocationSearch (UseGeolocation.location (geolocationHook st))
    (activeCategory st).

(** [handleLoadMore], closed over [activeCategory] and [businesses.length]. *)
Definition handleLoadMore (activeCategory : string) (businesses_length : nat)
  (f : fetched UseBusinesses.body) : M state unit :=
  fetchBusinesses
    [("category", Js.Str activeCategory);
     ("offset", Js.Num (SF2Prim (binary_normalize prec emax
                                   (Z.of_nat businesses_length) 0 false)));
     ("limit", Js.Num 50)] f ;;
  ret tt.

(** The effect that loads the active category: [{ category, limit: 50 }]. *)
Definition loadInitialData (activeCategory : string)
  (f : fetched UseBusinesses.body) : M state unit :=
  fetchBusinesses [("category", Js.Str activeCategory); ("limit", Js.Num 50)] f ;;
  ret tt.

End WithEngine.

Definition handleCategoryChange (category : string) : M state unit :=
  setActiveCategory category.

End App.

(** ** Properties of the hooks and views *)

(** The loading protocol of a fetch: the part before the request leaves
    [loading] set and [error] cleared, and the continuation leaves [loading]
    unset however the request settles and whatever happened in between. *)
Definition follows_protocol {S A B R : Type}
  (loading : S -> bool) (error : S -> option string)
  (begin : M S A) (settle : R -> M S B) : Prop :=
  (forall st, loading (exec begin st) = true /\ error (exec begin st) = None) /\
  (forall r st, loading (exec (settle r) st) = false).

(** The page a body carries: [data.businesses || []]. *)
Definition page (data : UseBusinesses.body) : list business :=
  UseBusinesses.or_default (UseBusinesses.body_businesses data) [].

(** [params.offset] is the number 0, or the key is missing. *)
Definition offset_zero_or_absent (params : Js.object) : Prop :=
  Js.get params "offset" = Js.Num 0 \/ Js.get params "offset" = Js.Undefined.

(** [params.offset] is a number above 0. *)
Definition offset_positive (params : Js.object) : Prop :=
  exists x, Js.get params "offset" = Js.Num x /\ (0 <? x)%float = true.

(** Replace and append semantics of one successful fetch, with the promise
    that appending a duplicate-free page to a duplicate-free list brings in
    no duplicate id. *)
Definition pagination_claim (st : UseBusinesses.state) (params : Js.object)
  (data : UseBusinesses.body) : Prop :=
  let st' :=
    exec (UseBusinesses.fetchBusinesses_settle params
            (Answered (Response 200 (Js.Resolved data)))) st in
  (offset_zero_or_absent params -> UseBusinesses.businesses st' = page data) /\
  (offset_positive params ->
     UseBusinesses.businesses st' = (UseBusinesses.businesses st ++ page data)%list /\
     (NoDup (ids (UseBusinesses.businesses st)) -> NoDup (ids (page data)) ->
      NoDup (ids (UseBusinesses.businesses st')))).

(** The three degraded views, as opposed to the rows. *)
Definition degraded (c : content) : bool :=
  match c with
  | Loading | ErrorMessage _ | EmptyState => true
  | Items _ _ => false
  end.

(** ** Sample data for the worked cases *)

(** A business hook that already shows one business. *)
Definition one_business : business :=
  Business 1 "Lidl Malta" (Js.Num 35.8972) (Js.Num 14.4611).

Definition showing_one : UseBusinesses.state :=
  UseBusinesses.State [one_business] [] false None 1 false.

(** The server answers 500. *)
Definition server_error : fetched UseBusinesses.body :=
  Answered (Response 500 (Js.Rejected (Js.Error "Unexpected end of JSON input"))).

(** A second page asked for at offset 1. *)
Definition second_page_params : Js.object :=
  [("category", Js.Str "grocery"); ("offset", Js.Num 1); ("limit", Js.Num 50)].

Definition another_business : business :=
  Business 2 "Greens Supermarket" (Js.Num 35.8978) (Js.Num 14.5125).

Definition fresh_page : UseBusinesses.body :=
  UseBusinesses.Body (Some [another_business]) (Some 2%Z) (Some false).

(** A page that repeats the business already shown, as the server returns
    when a record was inserted ahead of it between the two requests. *)
Definition shifted_page : UseBusinesses.body :=
  UseBusinesses.Body (Some [one_business]) (Some 2%Z) (Some false).

(** * Part I, continued: the code around the hooks and views *)

(** ** hooks/useBusinesses.js and config.js: the API base URL *)

Module Config.

(** The variables of [process.env] the two files read; [None] is unset. *)
Record env : Type := Env {
  NODE_ENV : option string;
  REACT_APP_ENVIRONMENT : option string;
  REACT_APP_API_URL : option string;
  REACT_APP_BACKEND_URL : option string
}.

(** [process.env.X === 'text']. *)
Definition equals (v : option string) (text : string) : bool :=
  match v with
  | Some s => String.eqb s text
  | None => false
  end.

(** [process.env.X || fallback]. *)
Definition or_else (v : option string) (fallback : string) : string :=
  match v with
  | Some s => Js.or_string s fallback
  | None => fallback
  end.

Definition is_set (v : option string) : bool :=
  match v with
  | Some s => negb (Js.is_empty s)
  | None => false
  end.

Definition isDevelopment (e : env) : bool := equals (NODE_ENV e) "development".
Definition isGitHubPages (e : env) : bool := equals (REACT_APP_ENVIRONMENT e) "github-pages".

(** config.js, [getApiBaseUrl]. *)
Definition getApiBaseUrl (e : env) : string :=
  if is_set (REACT_APP_API_URL e) then or_else (REACT_APP_API_URL e) EmptyString
  else if isDevelopment e then EmptyString
  else if isGitHubPages e then
    or_else (REACT_APP_BACKEND_URL e)
      "https://iac-infraengine-backend.azurecontainerapps.io"
  else "http://localhost:5000".

(** useBusinesses.js, [API_BASE_URL]. *)
Definition hook_API_BASE_URL (e : env) : string :=
  or_else (REACT_APP_API_URL e)
    (if isDevelopment e then EmptyString else "http://localhost:5000").

End Config.

(** ** components/BusinessList.js: the formatters *)

Module BusinessListFormat.

(** [phone.startsWith('+') ? phone : `+356 ${phone}`], behind [!phone]. *)
Definition formatPhone (phone : option string) : option string :=
  match phone with
  | None => None
  | Some phone =>
      if Js.is_empty phone then None
      else Some (if String.prefix "+" phone then phone else "+356 " ++ phone)
  end.

Definition between (lo hi : nat) (c : ascii) : bool :=
  (lo <=? nat_of_ascii c)%nat && (nat_of_ascii c <=? hi)%nat.

Definition is_lower (c : ascii) : bool := between 97 122 c.
Definition is_upper (c : ascii) : bool := between 65 90 c.
Definition is_digit (c : ascii) : bool := between 48 57 c.

(** The class [\w]. *)
Definition is_word (c : ascii) : bool :=
  is_lower c || is_upper c || is_digit c || Ascii.eqb c "_".

(** [l.toUpperCase()] of a character matched by [\w]. *)
Definition toUpperCase (c : ascii) : ascii :=
  if is_lower c then ascii_of_nat (nat_of_ascii c - 32) else c.

(** [.replace(/_/g, ' ')]. *)
Fixpoint replaceUnderscores (s : string) : string :=
  match s with
  | EmptyString => EmptyString
  | String c rest =>
      String (if Ascii.eqb c "_" then " "%char else c) (replaceUnderscores rest)
  end.

(** [.replace(/\b\w/g, l => l.toUpperCase())]: a word character is replaced
    when the character before it, if any, is not one. *)
Fixpoint capitalizeWords (after_word : bool) (s : string) : string :=
  match s with
  | EmptyString => EmptyString
  | String c rest =>
      String (if is_word c && negb after_word then toUpperCase c else c)
             (capitalizeWords (is_word c) rest)
  end.

(** [None] on input is a value that is not an array; on output it is the
    [null] of the guard or the [undefined] of an empty array. *)
Definition formatBusinessType (businessType : option (list string)) : option string :=
  match businessType with
  | None => None
  | Some [] => None
  | Some (first :: _) => Some (capitalizeWords false (replaceUnderscores first))
  end.

(** No character of [s] is an underscore. *)
Fixpoint no_underscore (s : string) : bool :=
  match s with
  | EmptyString => true
  | String c rest => negb (Ascii.eqb c "_") && no_underscore rest
  end.

End BusinessListFormat.

(** ** components/OpenStreetMap.js *)

Module OpenStreetMap.
Section WithEngine.
Context `{Engine}.

(** Where the marker of a store goes; [None] when the store is skipped. *)
Definition markerPosition (store : business) : option (float * float) :=
  let lat := parseFloat (latitude store) in
  let lng := parseFloat (longitude store) in
  if is_nan lat || is_nan lng || (lat =? 0)%float || (lng =? 0)%float then None
  else Some (lat, lng).

Definition markers (stores : list business) : list (business * (float * float)) :=
  flat_map
    (fun store =>
       match markerPosition store with
       | Some p => [(store, p)]
       | None => []
       end)
    stores.

End WithEngine.

(** [MapController]: whether the effect calls [map.setView(center, zoom)]. *)
Definition setsView (center : option (float * float)) : bool :=
  match center with
  | Some (c0, c1) => negb (c0 =? 0)%float && negb (c1 =? 0)%float
  | None => false
  end.

End OpenStreetMap.

(** ** components/CategoryTabs.js *)

Module CategoryTabs.

(** The tab bar with what is shown below it. *)
Inductive view (C : Type) : Type :=
  | LoadingState
  | ErrorState (msg : string)
  | Tabs (tabs : list (UseBusinesses.category * bool)) (children : C).

Arguments LoadingState {C}.
Arguments ErrorState {C} msg.
Arguments Tabs {C} tabs children.

(** [useState(activeCategory || 'grocery')]. *)
Definition initialLocal (activeCategory : string) : string :=
  Js.or_string activeCategory "grocery".

(** The effect that follows a truthy [activeCategory]. *)
Definition syncLocal (activeCategory localActiveCategory : string) : string :=
  if Js.is_empty activeCategory then localActiveCategory else activeCategory.

Definition render {C : Type} (categories : list UseBusinesses.category)
  (localActiveCategory : string) (loading : bool) (error : option string)
  (children : C) : view C :=
  if loading then LoadingState
  else match shown_error error with
       | Some msg => ErrorState msg
       | None =>
           Tabs (map (fun c => (c, String.eqb (UseBusinesses.key c) localActiveCategory))
                     categories)
                children
       end.

End CategoryTabs.

(** ** App.js: the sidebar and the selection handler *)

Module AppView.

(** [<CategoryTabs ...><BusinessList ... /></CategoryTabs>] with the props
    [App] passes. *)
Definition sidebar (st : App.state) (localActiveCategory : string)
  : CategoryTabs.view content :=
  let b := App.businessHook st in
  CategoryTabs.render (UseBusinesses.categories b) localActiveCategory
    (is_nil (UseBusinesses.categories b) && UseBusinesses.loading b)
    (UseBusinesses.error b)
    (BusinessList.render
       (BusinessList.Props (UseBusinesses.businesses b) (UseBusinesses.loading b)
          (UseBusinesses.error b) (UseBusinesses.total b) (UseBusinesses.hasMore b))).



Section WithEngine.
Context `{Engine}.



(** [handleItemSelect]. *)
Definition handleItemSelect (item : business) : M App.state unit :=
  App.setMapCenter (parseFloat (latitude item), parseFloat (longitude item)) ;;
  App.setMapZoom 16%float.

(** The parameters that reach [fetchBusinesses] when [handleSearch] gets the
    form's object: [{ ...searchParams, category: activeCategory }] under the
    defaults of [searchBusinesses]. *)
Definition form_search_params (activeCategory : string) (f : SearchFilters.filters)
  : Js.object :=
  UseBusinesses.searchBusinesses_params
    (Js.set (Js.spread [] (SearchFilters.searchParams f)) "category"
       (Js.Str activeCategory)).

End WithEngine.
End AppView.


(** ** components/SearchFilters.js: the form state *)

Module SearchFiltersForm.

(** The calls of [handleFilterChange(key, value)] the inputs make, and the
    effect that copies [activeCategory] into the form. *)
Inductive change : Type :=
  | ChangeQuery (value : string)
  | ChangeCategory (value : string)
  | ChangeMinRating (value : string)
  | ChangeMaxPriceLevel (value : string)
  | ChangeRadius (value : string)
  | ChangeExcludeClosed (checked : bool).

(** [setFilters(prev => ({ ...prev, [key]: value }))]. *)
Definition handleFilterChange (c : change) (prev : SearchFilters.filters)
  : SearchFilters.filters :=
  match c with
  | ChangeQuery v =>
      SearchFilters.Filters v (SearchFilters.category prev)
        (SearchFilters.min_rating prev) (SearchFilters.max_price_level prev)
        (SearchFilters.radius prev) (SearchFilters.exclude_closed prev)
  | ChangeCategory v =>
      SearchFilters.Filters (SearchFilters.query prev) v
        (SearchFilters.min_rating prev) (SearchFilters.max_price_level prev)
        (SearchFilters.radius prev) (SearchFilters.exclude_closed prev)
  | ChangeMinRating v =>
      SearchFilters.Filters (SearchFilters.query prev) (SearchFilters.category prev)
        v (SearchFilters.max_price_level prev)
        (SearchFilters.radius prev) (SearchFilters.exclude_closed prev)
  | ChangeMaxPriceLevel v =>
      SearchFilters.Filters (SearchFilters.query prev) (SearchFilters.category prev)
        (SearchFilters.min_rating prev) v
        (SearchFilters.radius prev) (SearchFilters.exclude_closed prev)
  | ChangeRadius v =>
      SearchFilters.Filters (SearchFilters.query prev) (SearchFilters.category prev)
        (SearchFilters.min_rating prev) (SearchFilters.max_price_level prev)
        v (SearchFilters.exclude_closed prev)
  | ChangeExcludeClosed b =>
      SearchFilters.Filters (SearchFilters.query prev) (SearchFilters.category prev)
        (SearchFilters.min_rating prev) (SearchFilters.max_price_level prev)
        (SearchFilters.radius prev) b
  end.

(** [clearFilters]. *)
Definition clearFilters (activeCategory : string) : SearchFilters.filters :=
  SearchFilters.Filters EmptyString activeCategory EmptyString EmptyString "5000" true.

(** Whether the "Clear filters" button is rendered. *)
Definition hasFilters (f : SearchFilters.filters) : bool :=
  negb (Js.is_empty (SearchFilters.query f)) ||
  negb (Js.is_empty (SearchFilters.min_rating f)) ||
  negb (Js.is_empty (SearchFilters.max_price_level f)) ||
  negb (String.eqb (SearchFilters.radius f) "5000") ||
  negb (SearchFilters.exclude_closed f).

End SearchFiltersForm.


(** ** services/mockGoogleMaps.js: the mock places *)

Module MockPlaces.

Record place : Type := Place {
  place_id : string;
  place_name : string;
  place_lat : float;
  place_lng : float;
  formatted_address : string;
  rating : float;
  user_ratings_total : Z;
  price_level : Z;
  business_status : string
}.

Definition mockStores : list place :=
  [Place "mock_greens_supermarket_valletta" "Greens Supermarket" 35.8978 14.5125
     "Republic Street, Valletta, Malta" 4.2 245 2 "OPERATIONAL";
   Place "mock_pama_shopping_village" "Pama Shopping Village" 35.8756 14.4892
     "Triq il-Qrendi, Mqabba, Malta" 4.5 1250 2 "OPERATIONAL";
   Place "mock_valyou_supermarket_sliema" "Valyou Supermarket" 35.9122 14.5019
     "Tower Road, Sliema, Malta" 3.8 180 1 "OPERATIONAL";
   Place "mock_welbees_supermarket_gozo" "Welbees Supermarket" 36.0444 14.2406
     "Triq ir-Repubblika, Victoria, Gozo, Malta" 4.1 95 2 "OPERATIONAL";
   Place "mock_lidl_malta_birkirkara" "Lidl Malta" 35.8972 14.4611
     "Triq Dun Karm, Birkirkara, Malta" 4.3 567 1 "OPERATIONAL";
   Place "mock_tower_supermarket_gzira" "Tower Supermarket" 35.9063 14.4947
     "Triq it-Torri, Gzira, Malta" 3.9 134 2 "OPERATIONAL";
   Place "mock_smart_supermarket_hamrun" "Smart Supermarket" 35.8842 14.4956
     "Triq Vilhena, Hamrun, Malta" 3.6 89 1 "OPERATIONAL";
   Place "mock_park_towers_supermarket" "Park Towers Supermarket" 35.9142 14.4889
     "Park Towers, Tigne Point, Sliema, Malta" 4.0 156 3 "OPERATIONAL";
   Place "mock_mega_mart_mosta" "Mega Mart" 35.9089 14.4278
     "Triq il-Kbira, Mosta, Malta" 4.4 289 2 "OPERATIONAL"].

Section WithEngine.
Context `{Engine}.

(** [searchNearby(location, radius = 5000)]: [radius] is [None] when the
    argument is omitted. *)
Definition searchNearby (location_lat location_lng : float) (radius : option float)
  : list place :=
  let radius := match radius with Some r => r | None => 5000%float end in
  filter
    (fun store =>
       let distance :=
         MockGoogleMapsService.calculateDistance location_lat location_lng
           (place_lat store) (place_lng store) in
       (distance <=? radius)%float)
    mockStores.

End WithEngine.

(** [getPlaceDetails]: the store found by [find], before the details are
    added to it. *)
Definition findPlace (placeId : string) : option place :=
  find (fun s => String.eqb (place_id s) placeId) mockStores.

End MockPlaces.


(** The fifth mock store. *)
Definition lidl_place : MockPlaces.place :=
  MockPlaces.Place "mock_lidl_malta_birkirkara" "Lidl Malta" 35.8972 14.4611
    "Triq Dun Karm, Birkirkara, Malta" 4.3 567 1 "OPERATIONAL".


(** ** services/mockGoogleMaps.js: the mock map and its markers *)

Module MockMaps.

(** The objects the mock classes create: every [MockMap] has its [markers]
    array, every [MockMarker] its [map] field ([None] is [null]).  Objects
    are named by numbers; [created] counts the markers constructed so far. *)
Record heap : Type := Heap {
  markers : nat -> list nat;
  map_ : nat -> option nat;
  created : nat
}.

Definition empty : heap := Heap (fun _ => []) (fun _ => None) 0.

Definition update {A : Type} (f : nat -> A) (k : nat) (v : A) : nat -> A :=
  fun k' => if Nat.eqb k' k then v else f k'.

(** [this.markers.push(marker)]. *)
Definition addMarker (map marker : nat) (h : heap) : heap :=
  Heap (update (markers h) map (markers h map ++ [marker])%list) (map_ h) (created h).

(** [indexOf] and [splice(index, 1)]: the first occurrence goes. *)
Fixpoint spliceFirst (marker : nat) (l : list nat) : list nat :=
  match l with
  | [] => []
  | x :: rest => if Nat.eqb x marker then rest else x :: spliceFirst marker rest
  end.

Definition removeMarker (map marker : nat) (h : heap) : heap :=
  Heap (update (markers h) map (spliceFirst marker (markers h map))) (map_ h) (created h).

(** [new MockMarker({ map })]: the new marker's number and the heap. *)
Definition newMarker (map : option nat) (h : heap) : nat * heap :=
  let marker := created h in
  let h := Heap (markers h) (update (map_ h) marker map) (S (created h)) in
  (marker, match map with
           | Some k => addMarker k marker h
           | None => h
           end).

(** [marker.setMap(map)]. *)
Definition setMap (marker : nat) (map : option nat) (h : heap) : heap :=
  let h := match map_ h marker with
           | Some old => removeMarker old marker h
           | None => h
           end in
  let h := Heap (markers h) (update (map_ h) marker map) (created h) in
  match map with
  | Some k => addMarker k marker h
  | None => h
  end.

(** Each marker is listed once by the map its field names and by no other,
    and markers not yet constructed are listed nowhere. *)
Definition consistent (h : heap) : Prop :=
  (forall marker k,
     count_occ Nat.eq_dec (markers h k) marker =
     match map_ h marker with
     | Some k' => if Nat.eqb k' k then 1 else 0
     | None => 0
     end) /\
  (forall marker, created h <= marker -> map_ h marker = None).

End MockMaps.

(** * Part II: facts and theorems *)

(** ** Binary64 arithmetic

    Sign symmetry of rounding, and bounds on exponents that keep products and
    quotients of moderate values finite. *)

Module F64Facts.
Import F64.
Local Open Scope float_scope.

(** Rounding treats the sign as a label: flipping it flips the result. *)
Lemma opp_sf_round_aux s m e l :
  binary_round_aux prec emax (negb s) m e l = SFopp (binary_round_aux prec emax s m e l).
Proof.
  unfold binary_round_aux.
  destruct (shr_fexp prec emax m e l) as [mrs' e'].
  destruct (shr_fexp prec emax _ e' loc_Exact) as [mrs'' e''].
  destruct (shr_m mrs''); simpl; try reflexivity.
  destruct (Z.leb _ _); reflexivity.
Qed.

Lemma SFmul_opp_l x y : SF64mul (SFopp x) y = SFopp (SF64mul x y).
Proof.
  destruct x as [sx|sx| |sx mx ex], y as [sy|sy| |sy my ey]; simpl; try reflexivity;
    try (destruct sx, sy; reflexivity).
  unfold SF64mul; simpl.
  rewrite <- opp_sf_round_aux. f_equal. destruct sx, sy; reflexivity.
Qed.

Lemma SFmul_comm x y : SF64mul x y = SF64mul y x.
Proof.
  destruct x as [sx|sx| |sx mx ex], y as [sy|sy| |sy my ey]; simpl; try reflexivity;
    try (destruct sx, sy; reflexivity).
  unfold SF64mul; simpl.
  now rewrite xorb_comm, Pos.mul_comm, Z.add_comm.
Qed.

Lemma SFdiv_opp_l x y : SF64div (SFopp x) y = SFopp (SF64div x y).
Proof.
  destruct x as [sx|sx| |sx mx ex], y as [sy|sy| |sy my ey]; simpl; try reflexivity;
    try (destruct sx, sy; reflexivity).
  unfold SF64div; simpl.
  destruct (SFdiv_core_binary prec emax (Z.pos mx) ex (Z.pos my) ey) as [[mz ez] lz].
  rewrite <- opp_sf_round_aux. f_equal. destruct sx, sy; reflexivity.
Qed.

Lemma opp_sf_normalize z e :
  binary_normalize prec emax (- z) e false = SFopp (binary_normalize prec emax z e false)
  \/ (binary_normalize prec emax z e false = S754_zero false /\ z = 0%Z).
Proof.
  destruct z as [|p|p]; simpl.
  - right; split; reflexivity.
  - left. unfold binary_round.
    destruct (shl_align p e _) as [mz ez]. apply (opp_sf_round_aux false).
  - left. unfold binary_round.
    destruct (shl_align p e _) as [mz ez].
    rewrite (opp_sf_round_aux false).
    destruct (binary_round_aux _ _ _ _ _ _) as [[]|[]| |[] ? ?]; reflexivity.
Qed.

(** [y - x] is the opposite of [x - y], unless both are +0. *)
Lemma SFsub_antisym x y :
  SF64sub y x = SFopp (SF64sub x y) \/
  (SF64sub x y = S754_zero false /\ SF64sub y x = S754_zero false).
Proof.
  destruct x as [sx|sx| |sx mx ex], y as [sy|sy| |sy my ey]; simpl;
    try (left; reflexivity);
    try (destruct sx, sy; simpl; (left; reflexivity) || (right; split; reflexivity)).
  - unfold SF64sub; simpl. rewrite (Z.min_comm ey ex).
    set (ez := Z.min ex ey).
    set (A := cond_Zopp sx _). set (B := cond_Zopp sy _).
    replace (B - A)%Z with (- (A - B))%Z by lia.
    destruct (opp_sf_normalize (A - B) ez) as [H|[H H0]].
    + now left.
    + right. split; [exact H|]. rewrite H0. reflexivity.
Qed.

(** [x - x] is +0 for finite [x]. *)
Lemma SFsub_diag x : finite_sf x = true -> SF64sub x x = S754_zero false.
Proof.
  destruct x as [[]|[]| |s m e]; simpl; try discriminate; try reflexivity.
  intros _. unfold SF64sub, SFsub. now rewrite Z.sub_diag.
Qed.

(** The number of binary digits, against the value. *)
Lemma digits2_size p : digits2_pos p = Pos.size p.
Proof. induction p; simpl; congruence. Qed.

Lemma pos_lt_pow_size p : (Z.pos p < 2 ^ Z.pos (digits2_pos p))%Z.
Proof.
  rewrite digits2_size. generalize (Pos.size_gt p). intros H.
  apply Pos2Z.pos_lt_pos in H. now rewrite Pos2Z.inj_pow in H.
Qed.

Lemma Zdigits2_le z k :
  (0 <= k)%Z -> (0 <= z < 2 ^ k)%Z -> (Zdigits2 z <= k)%Z.
Proof.
  intros Hk [H0 H]. destruct z as [|p|p]; simpl; try lia.
  rewrite digits2_size.
  generalize (Pos.size_le p). intros Hs.
  apply Pos2Z.pos_le_pos in Hs. rewrite Pos2Z.inj_pow in Hs.
  assert (2 ^ Z.pos (Pos.size p) < 2 ^ (k + 1))%Z as Hlt.
  { rewrite Z.pow_add_r by lia. change (Z.pos p~0) with (2 * Z.pos p)%Z in Hs. lia. }
  apply Z.pow_lt_mono_r_iff in Hlt; lia.
Qed.

(** Shifting right keeps a mantissa between 0 and where it started. *)
Lemma shr_1_range mrs M :
  (0 <= shr_m mrs <= M)%Z -> (0 <= shr_m (shr_1 mrs) <= M)%Z.
Proof.
  destruct mrs as [m r s]; simpl.
  destruct m as [|[p|p|]|[p|p|]]; simpl; lia.
Qed.

Lemma iter_shr_1_range n : forall mrs M,
  (0 <= shr_m mrs <= M)%Z -> (0 <= shr_m (iter_pos shr_1 n mrs) <= M)%Z.
Proof.
  induction n; intros mrs M H; simpl; auto using shr_1_range.
Qed.

Lemma shr_range mrs e n M :
  (0 <= shr_m mrs <= M)%Z -> (0 <= shr_m (fst (shr mrs e n)) <= M)%Z.
Proof.
  intros H. destruct n; simpl; auto using iter_shr_1_range.
Qed.

Lemma shr_record_of_loc_m m l : shr_m (shr_record_of_loc m l) = m.
Proof. destruct l as [|[]]; reflexivity. Qed.

Lemma round_nearest_even_range m l :
  (0 <= m)%Z -> (0 <= round_nearest_even m l <= m + 1)%Z.
Proof.
  intros H. destruct l as [|[]]; simpl; try lia. destruct (Z.even m); lia.
Qed.

(** The exponent after alignment of a mantissa below [2 ^ K]. *)
Lemma shr_fexp_exp m e l K E :
  (0 <= K)%Z -> (0 <= m < 2 ^ K)%Z -> (e <= E)%Z -> (-1074 <= E)%Z ->
  (snd (shr_fexp prec emax m e l) <= E + K)%Z.
Proof.
  intros HK Hm He HE. unfold shr_fexp, shr.
  assert (Zdigits2 m <= K)%Z as Hd by (apply Zdigits2_le; lia).
  destruct (fexp prec emax (Zdigits2 m + e) - e)%Z eqn:Hn; simpl; try lia.
  rewrite <- Hn. unfold fexp, emin, prec, emax. lia.
Qed.

(** Rounding a mantissa below [2 ^ K] at an exponent up to [E] gives a zero
    or a finite value, never an infinity or NaN. *)
Lemma round_aux_exp s m e l K E :
  (0 <= K)%Z -> (0 <= m < 2 ^ K)%Z -> (e <= E)%Z -> (-1074 <= E)%Z ->
  (E + 2 * K + 1 <= 971)%Z ->
  exp_le_sf (E + 2 * K + 1) (binary_round_aux prec emax s m e l).
Proof.
  intros HK Hm He HE Hfit. unfold binary_round_aux.
  generalize (shr_fexp_exp m e l K E).
  generalize (shr_range (shr_record_of_loc m l) e
                (fexp prec emax (Zdigits2 m + e) - e) m).
  rewrite shr_record_of_loc_m. fold (shr_fexp prec emax m e l).
  destruct (shr_fexp prec emax m e l) as [mrs' e']. cbn [fst snd].
  intros Hr He'.
  assert (0 <= shr_m mrs' <= m)%Z as Hr' by (apply Hr; lia). clear Hr.
  assert (e' <= E + K)%Z as He'' by (apply He'; lia). clear He'.
  set (m2 := round_nearest_even _ _).
  assert (0 <= m2 <= m + 1)%Z as Hm2.
  { generalize (round_nearest_even_range (shr_m mrs') (loc_of_shr_record mrs')).
    fold m2. lia. }
  assert (2 ^ (K + 1) = 2 * 2 ^ K)%Z as Hpow
    by (rewrite Z.pow_add_r by lia; change (2 ^ 1)%Z with 2%Z; lia).
  generalize (shr_fexp_exp m2 e' loc_Exact (K + 1) (E + K)).
  generalize (shr_range (shr_record_of_loc m2 loc_Exact) e'
                (fexp prec emax (Zdigits2 m2 + e') - e') m2).
  rewrite shr_record_of_loc_m. fold (shr_fexp prec emax m2 e' loc_Exact).
  destruct (shr_fexp prec emax m2 e' loc_Exact) as [mrs'' e'']. cbn [fst snd].
  intros Hr Hx.
  assert (0 <= shr_m mrs'')%Z as Hr2 by (apply Hr; lia).
  assert (e'' <= E + K + (K + 1))%Z as Hx2 by (apply Hx; lia).
  destruct (shr_m mrs'') as [|p|p]; [exact I| |lia].
  change (emax - prec)%Z with 971%Z.
  destruct (Z.leb_spec e'' 971) as [_|Hgt]; unfold exp_le_sf; lia.
Qed.

(** A binary64 mantissa has at most 53 bits. *)
Lemma valid_mantissa_lt s m e :
  valid_binary (S754_finite s m e) = true -> (Z.pos m < 2 ^ 53)%Z.
Proof.
  simpl. unfold bounded, canonical_mantissa. intros H.
  apply andb_prop in H as [H _]. apply Z.eqb_eq in H.
  assert (Z.pos (digits2_pos m) <= 53)%Z as Hd.
  { unfold fexp, emin, prec, emax in H. lia. }
  generalize (pos_lt_pow_size m). intros Hlt.
  assert (2 ^ Z.pos (digits2_pos m) <= 2 ^ 53)%Z by (apply Z.pow_le_mono_r; lia).
  lia.
Qed.

Lemma unit_range_sf x :
  unit_range x = true ->
  match Prim2SF x with
  | S754_zero _ => True
  | S754_finite _ m e => (e <= 0)%Z /\ (Z.pos m < 2 ^ 53)%Z
  | _ => False
  end.
Proof.
  unfold unit_range. rewrite leb_spec, abs_spec.
  generalize (Prim2SF_valid x).
  change (Prim2SF 1) with (S754_finite false 4503599627370496 (-52)).
  destruct (Prim2SF x) as [s|s| |s m e]; simpl; try discriminate; auto.
  intros Hv H. split; [|exact (valid_mantissa_lt s m e Hv)].
  unfold SFleb, SFcompare in H.
  destruct (Z.compare_spec e (-52)); try lia; discriminate.
Qed.

Lemma exp_le_finite B x : exp_le B x -> finite_sf (Prim2SF x) = true.
Proof. unfold exp_le. now destruct (Prim2SF x). Qed.

Lemma exp_le_weaken B B' x : (B <= B')%Z -> exp_le B x -> exp_le B' x.
Proof. unfold exp_le. destruct (Prim2SF x); simpl; auto. lia. Qed.

(** A value between a negative and a positive bound is finite, with an
    exponent no larger than theirs. *)
Lemma range_exp lo hi x ml el mh eh :
  Prim2SF lo = S754_finite true ml el ->
  Prim2SF hi = S754_finite false mh eh ->
  (lo <=? x) && (x <=? hi) = true -> exp_le (Z.max el eh) x.
Proof.
  intros Hlo Hhi H. apply andb_prop in H as [H1 H2].
  rewrite leb_spec in H1, H2. rewrite Hlo in H1. rewrite Hhi in H2.
  unfold exp_le. destruct (Prim2SF x) as [s|[]| |[] m e]; simpl; try discriminate; auto.
  - unfold SFleb, SFcompare in H1.
    destruct (Z.compare_spec el e); try discriminate; lia.
  - unfold SFleb, SFcompare in H2.
    destruct (Z.compare_spec e eh); try discriminate; lia.
Qed.

(** Products and quotients of values with bounded exponents are finite. *)
Lemma mul_exp B1 B2 x y :
  exp_le B1 x -> exp_le B2 y ->
  (-1074 <= B1 + B2)%Z -> (B1 + B2 + 213 <= 971)%Z ->
  exp_le (B1 + B2 + 213) (x * y).
Proof.
  unfold exp_le. intros Hx Hy Hlo Hhi. rewrite mul_spec.
  generalize (Prim2SF_valid x) (Prim2SF_valid y).
  destruct (Prim2SF x) as [sx|sx| |sx mx ex]; try contradiction;
    destruct (Prim2SF y) as [sy|sy| |sy my ey]; try contradiction;
    try exact (fun _ _ => I).
  intros Hvx Hvy. apply valid_mantissa_lt in Hvx, Hvy. simpl in Hx, Hy.
  unfold SF64mul, SFmul.
  replace (B1 + B2 + 213)%Z with (B1 + B2 + 2 * 106 + 1)%Z by lia.
  apply round_aux_exp; try lia.
  rewrite Pos2Z.inj_mul. split; [lia|].
  change (2 ^ 106)%Z with (2 ^ 53 * 2 ^ 53)%Z.
  apply Z.mul_lt_mono_nonneg; lia.
Qed.

Lemma div_core_bounds mx ex my ey :
  (Z.pos mx < 2 ^ 53)%Z -> (Z.pos my < 2 ^ 53)%Z ->
  let '(q, e', _) := SFdiv_core_binary prec emax (Z.pos mx) ex (Z.pos my) ey in
  (0 <= q < 2 ^ 159)%Z /\ (e' <= ex - ey)%Z.
Proof.
  intros Hmx Hmy. unfold SFdiv_core_binary.
  set (d1 := Zdigits2 (Z.pos mx)). set (d2 := Zdigits2 (Z.pos my)).
  assert (0 <= d1)%Z as Hd1 by (subst d1; simpl; lia).
  assert (d2 <= 53)%Z as Hd2 by (apply Zdigits2_le; lia).
  set (e' := Z.min _ _).
  assert (ex - ey - e' <= 106)%Z as Hs.
  { subst e'. unfold fexp, emin, prec, emax. lia. }
  set (m' := match (ex - ey - e')%Z with Z.pos _ => _ | _ => _ end).
  assert (0 <= m' < 2 ^ 159)%Z as Hm'.
  { subst m'. destruct (ex - ey - e')%Z as [|p|p] eqn:Hp.
    - split; [lia|]. assert (2 ^ 53 < 2 ^ 159)%Z by (apply Z.pow_lt_mono_r; lia). lia.
    - rewrite Z.shiftl_mul_pow2 by lia.
      assert (2 ^ Z.pos p <= 2 ^ 106)%Z by (apply Z.pow_le_mono_r; lia).
      assert (0 < 2 ^ Z.pos p)%Z by (apply Z.pow_pos_nonneg; lia).
      change (2 ^ 159)%Z with (2 ^ 53 * 2 ^ 106)%Z. nia.
    - split; [lia|]. apply Z.pow_pos_nonneg; lia. }
  generalize (Z_div_mod m' (Z.pos my) eq_refl).
  destruct (Z.div_eucl m' (Z.pos my)) as [q r]. intros [Hq Hr].
  split; [|subst e'; lia]. nia.
Qed.

Lemma div_exp B x y sy my ey :
  exp_le B x -> Prim2SF y = S754_finite sy my ey ->
  (-1074 <= B - ey)%Z -> (B - ey + 319 <= 971)%Z ->
  exp_le (B - ey + 319) (x / y).
Proof.
  unfold exp_le. intros Hx Hy Hlo Hhi. rewrite div_spec.
  generalize (Prim2SF_valid x) (Prim2SF_valid y). rewrite Hy.
  destruct (Prim2SF x) as [sx|sx| |sx mx ex]; try contradiction;
    try exact (fun _ _ => I).
  intros Hvx Hvy. apply valid_mantissa_lt in Hvx, Hvy. simpl in Hx.
  unfold SF64div, SFdiv.
  generalize (div_core_bounds mx ex my ey Hvx Hvy).
  destruct (SFdiv_core_binary prec emax (Z.pos mx) ex (Z.pos my) ey) as [[mz ez] lz].
  intros [Hq He].
  replace (B - ey + 319)%Z with (B - ey + 2 * 159 + 1)%Z by lia.
  apply round_aux_exp; lia.
Qed.

Lemma unit_range_exp x : unit_range x = true -> exp_le 0 x.
Proof.
  intros H. apply unit_range_sf in H. unfold exp_le.
  destruct (Prim2SF x); simpl; tauto.
Qed.

Lemma mul_unit_range_finite x y :
  unit_range x = true -> unit_range y = true ->
  finite_sf (Prim2SF (x * y)) = true.
Proof.
  intros Hx Hy. apply unit_range_exp in Hx, Hy.
  apply (exp_le_finite (0 + 0 + 213)). apply mul_exp; auto; lia.
Qed.

(** The shape the haversine term takes when both differences vanish. *)
Lemma haversine_zero_term p :
  finite_sf (Prim2SF p) = true -> 0 * 0 + p * 0 * 0 = 0.
Proof.
  intros H. apply Prim2SF_inj.
  rewrite add_spec, !mul_spec.
  change (Prim2SF 0) with (S754_zero false).
  destruct (Prim2SF p) as [[]|[]| |[] m e]; try discriminate; reflexivity.
Qed.

Lemma sub_diag x : finite_sf (Prim2SF x) = true -> x - x = 0.
Proof.
  intros H. apply Prim2SF_inj. rewrite sub_spec. now apply SFsub_diag.
Qed.

(** The same facts on [float]. *)
Lemma opp_involutive x : - - x = x.
Proof.
  apply Prim2SF_inj. rewrite !opp_spec.
  destruct (Prim2SF x) as [[]|[]| |[] m e]; reflexivity.
Qed.

Lemma mul_comm x y : x * y = y * x.
Proof. apply Prim2SF_inj. rewrite !mul_spec. apply SFmul_comm. Qed.

Lemma mul_opp_l x y : (- x) * y = - (x * y).
Proof. apply Prim2SF_inj. rewrite opp_spec, !mul_spec, opp_spec. apply SFmul_opp_l. Qed.

Lemma mul_opp_r x y : x * (- y) = - (x * y).
Proof. rewrite mul_comm, mul_opp_l. f_equal. apply mul_comm. Qed.

Lemma div_opp_l x y : (- x) / y = - (x / y).
Proof. apply Prim2SF_inj. rewrite opp_spec, !div_spec, opp_spec. apply SFdiv_opp_l. Qed.

Lemma sub_antisym x y : y - x = - (x - y) \/ (x - y = 0 /\ y - x = 0).
Proof.
  destruct (SFsub_antisym (Prim2SF x) (Prim2SF y)) as [H|[H1 H2]].
  - left. apply Prim2SF_inj. now rewrite opp_spec, !sub_spec.
  - right. split; apply Prim2SF_inj; now rewrite sub_spec.
Qed.

(** Degrees in the latitude range convert to finite radians. *)
Lemma radians_finite x :
  valid_lat x = true -> finite (x * Math_PI / 180) = true.
Proof.
  intros H.
  apply (range_exp (-90) 90 x 6333186975989760 (-46) 6333186975989760 (-46)
           eq_refl eq_refl) in H.
  assert (exp_le (-51) Math_PI) as Hpi.
  { unfold exp_le.
    change (Prim2SF Math_PI) with (S754_finite false 7074237752028440 (-51)).
    simpl; lia. }
  generalize (mul_exp _ _ _ _ H Hpi). intros Hm.
  assert (exp_le 116 (x * Math_PI)) as Hm' by (apply Hm; lia).
  generalize (div_exp 116 (x * Math_PI) 180 false 6333186975989760 (-45) Hm' eq_refl).
  intros Hd. apply (exp_le_finite (116 - -45 + 319)). apply Hd; lia.
Qed.

Lemma valid_lat_finite x : valid_lat x = true -> finite x = true.
Proof.
  intros H. apply (exp_le_finite (Z.max (-46) (-46))).
  now apply (range_exp (-90) 90 x 6333186975989760 (-46) 6333186975989760 (-46)).
Qed.

Lemma valid_lng_finite x : valid_lng x = true -> finite x = true.
Proof.
  intros H. apply (exp_le_finite (Z.max (-45) (-45))).
  now apply (range_exp (-180) 180 x 6333186975989760 (-45) 6333186975989760 (-45)).
Qed.

End F64Facts.

(** ** The distance calculator *)

Section Distance.
Context `{Engine}.
Import F64 F64Facts.
Local Open Scope float_scope.

Lemma half_angle_opp d :
  (- d) * Math_PI / 180 / 2 = - (d * Math_PI / 180 / 2).
Proof. now rewrite mul_opp_l, !div_opp_l. Qed.

Lemma sin_sq_swap x y :
  (forall t, Math_sin (- t) = - Math_sin t) ->
  Math_sin ((x - y) * Math_PI / 180 / 2) * Math_sin ((x - y) * Math_PI / 180 / 2) =
  Math_sin ((y - x) * Math_PI / 180 / 2) * Math_sin ((y - x) * Math_PI / 180 / 2).
Proof.
  intros odd. destruct (sub_antisym x y) as [E|[E1 E2]].
  - rewrite E, half_angle_opp, odd.
    now rewrite mul_opp_l, mul_opp_r, opp_involutive.
  - now rewrite E1, E2.
Qed.

Lemma scaled_sin_sq_swap p x y :
  (forall t, Math_sin (- t) = - Math_sin t) ->
  p * Math_sin ((x - y) * Math_PI / 180 / 2) * Math_sin ((x - y) * Math_PI / 180 / 2) =
  p * Math_sin ((y - x) * Math_PI / 180 / 2) * Math_sin ((y - x) * Math_PI / 180 / 2).
Proof.
  intros odd. destruct (sub_antisym x y) as [E|[E1 E2]].
  - rewrite E, half_angle_opp, odd.
    now rewrite !mul_opp_r, mul_opp_l, opp_involutive.
  - now rewrite E1, E2.
Qed.

(** The haversine term of two equal points is +0. *)
Lemma haversine_same_point lat lng :
  Math_sin 0 = 0 ->
  (forall x, finite x = true -> unit_range (Math_cos x) = true) ->
  valid_lat lat = true -> valid_lng lng = true ->
  Math_sin ((lat - lat) * Math_PI / 180 / 2) * Math_sin ((lat - lat) * Math_PI / 180 / 2) +
  Math_cos (lat * Math_PI / 180) * Math_cos (lat * Math_PI / 180) *
  Math_sin ((lng - lng) * Math_PI / 180 / 2) * Math_sin ((lng - lng) * Math_PI / 180 / 2) = 0.
Proof.
  intros sin_zero cos_range Hlat Hlng.
  rewrite (sub_diag lat (valid_lat_finite lat Hlat)).
  rewrite (sub_diag lng (valid_lng_finite lng Hlng)).
  change (0 * Math_PI / 180 / 2) with 0. rewrite sin_zero.
  apply haversine_zero_term.
  apply mul_unit_range_finite; apply cos_range, radians_finite, Hlat.
Qed.

(** The list component's own distance: 0 when the store sits on the user,
    provided the guard lets the store through. *)
Lemma StoreList_calculateDistance_same_point :
  Math_sin 0 = 0 ->
  (forall x, finite x = true -> unit_range (Math_cos x) = true) ->
  Math_atan2 0 1 = 0 ->
  forall user store,
    valid_lat (lat user) = true -> valid_lng (lng user) = true ->
    Js.truthy (latitude store) = true -> Js.truthy (longitude store) = true ->
    parseFloat (latitude store) = lat user ->
    parseFloat (longitude store) = lng user ->
    StoreList.calculateDistance (Some user) store = Some 0.
Proof.
  intros sin_zero cos_range atan2_zero user store Hlat Hlng Tlat Tlng Elat Elng.
  unfold StoreList.calculateDistance. rewrite Tlat, Tlng, Elat, Elng. cbn [negb orb].
  cbv zeta.
  rewrite (haversine_same_point _ _ sin_zero cos_range Hlat Hlng).
  change (Math_sqrt 0) with 0. change (Math_sqrt (1 - 0)) with 1.
  rewrite atan2_zero. reflexivity.
Qed.

(** C7. Identical points are at distance exactly 0: for every latitude in
    [-90, 90] and longitude in [-180, 180], [calculateDistance(lat, lng, lat,
    lng)] is +0, in the rounded version of services/googleMaps.js and in the
    unrounded one of services/mockGoogleMaps.js.  The list component's own
    version, for a store at the user's position, gives +0 exactly when both
    of the store's coordinates pass its truthiness guard; when one of them is
    falsy, as the number 0 is, it gives [null] and no distance.  The engine is
    assumed to give [Math.sin(+0) = +0], [Math.atan2(+0, 1) = +0] and
    [Math.round(+0) = +0], as ECMAScript requires, and a cosine of magnitude
    at most 1 on finite arguments. *)
Theorem calculateDistance_same_point :
  Math_sin 0 = 0 ->
  (forall x, finite x = true -> unit_range (Math_cos x) = true) ->
  Math_atan2 0 1 = 0 ->
  Math_round 0 = 0 ->
  forall lat lng, valid_lat lat = true -> valid_lng lng = true ->
    GoogleMapsService.calculateDistance lat lng lat lng = 0 /\
    MockGoogleMapsService.calculateDistance lat lng lat lng = 0 /\
    (forall acc store,
       parseFloat (latitude store) = lat -> parseFloat (longitude store) = lng ->
       StoreList.calculateDistance (Some (MkPosition lat lng acc)) store =
       if Js.truthy (latitude store) && Js.truthy (longitude store)
       then Some 0 else None).
Proof.
  intros sin_zero cos_range atan2_zero round_zero lat lng Hlat Hlng.
  unfold GoogleMapsService.calculateDistance, MockGoogleMapsService.calculateDistance.
  cbv zeta.
  rewrite (haversine_same_point lat lng sin_zero cos_range Hlat Hlng).
  change (Math_sqrt 0) with 0. change (Math_sqrt (1 - 0)) with 1.
  rewrite atan2_zero. change (6371000 * (2 * 0)) with 0.
  split; [apply round_zero | split; [reflexivity|]].
  intros acc store Elat Elng.
  destruct (Js.truthy (latitude store)) eqn:Tlat;
    [destruct (Js.truthy (longitude store)) eqn:Tlng|]; cbn [andb].
  - now apply StoreList_calculateDistance_same_point.
  - unfold StoreList.calculateDistance. rewrite Tlat, Tlng. reflexivity.
  - unfold StoreList.calculateDistance. rewrite Tlat. reflexivity.
Qed.

(** C8. The distance is symmetric in its two points, for all arguments and so
    for all valid coordinates, in both service versions.  The engine's sine is
    assumed odd, [Math.sin(-x) = -Math.sin(x)]. *)
Theorem calculateDistance_symmetric :
  (forall t, Math_sin (- t) = - Math_sin t) ->
  forall lat1 lng1 lat2 lng2,
    GoogleMapsService.calculateDistance lat1 lng1 lat2 lng2 =
    GoogleMapsService.calculateDistance lat2 lng2 lat1 lng1 /\
    MockGoogleMapsService.calculateDistance lat1 lng1 lat2 lng2 =
    MockGoogleMapsService.calculateDistance lat2 lng2 lat1 lng1.
Proof.
  intros odd lat1 lng1 lat2 lng2.
  unfold GoogleMapsService.calculateDistance, MockGoogleMapsService.calculateDistance.
  cbv zeta.
  rewrite (sin_sq_swap lat2 lat1 odd).
  rewrite (scaled_sin_sq_swap _ lng2 lng1 odd).
  rewrite (mul_comm (Math_cos (lat1 * Math_PI / 180))).
  split; reflexivity.
Qed.

(** Its guard tests truthiness, so a store whose latitude is the number 0
    gets no distance at all. *)
Lemma StoreList_calculateDistance_equator user nm lng0 :
  StoreList.calculateDistance (Some user) (Business 1 nm (Js.Num 0) lng0) = None.
Proof. reflexivity. Qed.

(** The haversine term is not clamped: should rounding leave it one unit in
    the last place above 1, the square root of [1 - a] is NaN, and so is the
    distance, on an engine whose [Math.atan2] and [Math.round] pass NaN on. *)
Remark calculateDistance_unclamped lat1 lng1 lat2 lng2 :
  (forall y, Math_atan2 y nan = nan) ->
  Math_round nan = nan ->
  Math_sin ((lat2 - lat1) * Math_PI / 180 / 2) *
    Math_sin ((lat2 - lat1) * Math_PI / 180 / 2) +
  Math_cos (lat1 * Math_PI / 180) * Math_cos (lat2 * Math_PI / 180) *
    Math_sin ((lng2 - lng1) * Math_PI / 180 / 2) *
    Math_sin ((lng2 - lng1) * Math_PI / 180 / 2) = 0x1.0000000000001p+0 ->
  GoogleMapsService.calculateDistance lat1 lng1 lat2 lng2 = nan /\
  MockGoogleMapsService.calculateDistance lat1 lng1 lat2 lng2 = nan.
Proof.
  intros atan2_nan round_nan Ha.
  unfold GoogleMapsService.calculateDistance, MockGoogleMapsService.calculateDistance.
  cbv zeta. rewrite Ha.
  change (Math_sqrt (1 - 0x1.0000000000001p+0)) with nan.
  rewrite atan2_nan. change (6371000 * (2 * nan)) with nan.
  split; [exact round_nan | reflexivity].
Qed.

(** C3. The distance is not defined for every valid pair.  For the points
    (0.08, 0) and (-0.08, 180), almost opposite each other on the globe, an
    engine whose sine and cosine are correctly rounded at the four arguments
    the call makes gives a haversine term of [1 + 2^-52]; [1 - a] is then
    negative, its square root is NaN, and [calculateDistance] returns NaN in
    services/googleMaps.js and in services/mockGoogleMaps.js.  The other
    engine facts are ECMAScript's: [Math.atan2] and [Math.round] give NaN for
    NaN. *)
Theorem calculateDistance_nan_near_antipodes :
  Math_sin (- 0x1.6e05a695f8191p-10) = - 0x1.6e059ecaa87dcp-10 ->
  Math_sin 0x1.921fb54442d18p+0 = 1 ->
  Math_cos 0x1.6e05a695f8191p-10 = 0x1.ffffdf4abdd1ep-1 ->
  Math_cos (- 0x1.6e05a695f8191p-10) = 0x1.ffffdf4abdd1ep-1 ->
  (forall y, Math_atan2 y nan = nan) ->
  Math_round nan = nan ->
  valid_lat 0.08 = true /\ valid_lng 0 = true /\
  valid_lat (- 0.08) = true /\ valid_lng 180 = true /\
  GoogleMapsService.calculateDistance 0.08 0 (- 0.08) 180 = nan /\
  MockGoogleMapsService.calculateDistance 0.08 0 (- 0.08) 180 = nan.
Proof.
  intros sin_lat sin_lng cos_1 cos_2 atan2_nan round_nan.
  do 4 (split; [reflexivity|]).
  apply (calculateDistance_unclamped 0.08 0 (- 0.08) 180 atan2_nan round_nan).
  change ((- 0.08 - 0.08) * Math_PI / 180 / 2) with (- 0x1.6e05a695f8191p-10).
  change ((180 - 0) * Math_PI / 180 / 2) with 0x1.921fb54442d18p+0.
  change (0.08 * Math_PI / 180) with 0x1.6e05a695f8191p-10.
  change (- 0.08 * Math_PI / 180) with (- 0x1.6e05a695f8191p-10).
  rewrite sin_lat, sin_lng, cos_1, cos_2. reflexivity.
Qed.

End Distance.

Lemma calculateDistance_nan_near_antipodes_witness :
  @GoogleMapsService.calculateDistance rounded_engine
    0.08%float 0%float (- 0.08)%float 180%float = nan /\
  @MockGoogleMapsService.calculateDistance rounded_engine
    0.08%float 0%float (- 0.08)%float 180%float = nan.
Proof.
  apply (@calculateDistance_nan_near_antipodes rounded_engine);
    try reflexivity.
  intros y. unfold Math_atan2, rounded_engine. now rewrite orb_true_r.
Defined.

Lemma calculateDistance_same_point_witness :
  @GoogleMapsService.calculateDistance stub_engine
    35.8989%float 14.5146%float 35.8989%float 14.5146%float = 0%float /\
  @MockGoogleMapsService.calculateDistance stub_engine
    35.8989%float 14.5146%float 35.8989%float 14.5146%float = 0%float /\
  @StoreList.calculateDistance stub_engine
    (Some (MkPosition 35.8989 14.5146 100))
    (Business 7 "Valletta Market" (Js.Num 35.8989) (Js.Num 14.5146)) = Some 0%float.
Proof.
  destruct (@calculateDistance_same_point stub_engine eq_refl
              (fun x _ => eq_refl) eq_refl eq_refl
              35.8989%float 14.5146%float eq_refl eq_refl)
    as [Hservice [Hmock Hlist]].
  split; [exact Hservice | split; [exact Hmock|]].
  exact (Hlist 100%float
           (Business 7 "Valletta Market" (Js.Num 35.8989) (Js.Num 14.5146))
           eq_refl eq_refl).
Defined.

(** A point of the equator is a valid point, and for a store there, with the
    user at the same place, the list component has no distance: its guard
    takes the latitude 0 for a missing one. *)
Lemma StoreList_calculateDistance_zero_latitude :
  valid_lat 0 = true /\ valid_lng 14.5146 = true /\
  @parseFloat stub_engine (Js.Num 0) = 0%float /\
  @StoreList.calculateDistance stub_engine
    (Some (MkPosition 0 14.5146 100))
    (Business 7 "Equator Market" (Js.Num 0) (Js.Num 14.5146)) = None.
Proof. repeat split. Qed.

Lemma calculateDistance_symmetric_witness :
  @GoogleMapsService.calculateDistance stub_engine
    35.8978%float 14.5125%float 36.0444%float 14.2406%float =
  @GoogleMapsService.calculateDistance stub_engine
    36.0444%float 14.2406%float 35.8978%float 14.5125%float /\
  @MockGoogleMapsService.calculateDistance stub_engine
    35.8978%float 14.5125%float 36.0444%float 14.2406%float =
  @MockGoogleMapsService.calculateDistance stub_engine
    36.0444%float 14.2406%float 35.8978%float 14.5125%float.
Proof.
  apply (@calculateDistance_symmetric stub_engine). intros t. reflexivity.
Defined.

(** ** hooks/useStores.js *)

(** A rejected request leaves a message and no stores, in all three
    operations and from any state. *)
Lemma useStores_failure_resets (err : Js.error) (st : UseStores.state) :
  let after_fetch := exec (UseStores.fetchStores_settle (Js.Rejected err)) st in
  let after_search := exec (UseStores.searchStores_settle (Js.Rejected err)) st in
  let after_nearby := exec (UseStores.getNearbyStores_settle (Js.Rejected err)) st in
  (UseStores.stores after_fetch = [] /\ UseStores.error after_fetch <> None) /\
  (UseStores.stores after_search = [] /\ UseStores.error after_search <> None) /\
  (UseStores.stores after_nearby = [] /\ UseStores.error after_nearby <> None).
Proof. repeat split; discriminate. Qed.

(** The stored message is the error's own unless that is empty. *)
Lemma useStores_failure_message (err : Js.error) (st : UseStores.state) :
  UseStores.error (exec (UseStores.fetchStores_settle (Js.Rejected err)) st) =
  Some (if Js.is_empty (Js.message err) then "Failed to fetch stores"
        else Js.message err).
Proof. reflexivity. Qed.

(** ** hooks/useBusinesses.js *)

(** A failed request sets the message and clears [loading]; nothing else
    changes. *)
Lemma fetchBusinesses_settle_rejected params f err st :
  read "Failed to fetch businesses: " f = Js.Rejected err ->
  exec (UseBusinesses.fetchBusinesses_settle params f) st =
  UseBusinesses.State (UseBusinesses.businesses st) (UseBusinesses.categories st)
    false (Some (Js.message err)) (UseBusinesses.total st) (UseBusinesses.hasMore st).
Proof.
  unfold UseBusinesses.fetchBusinesses_settle. intros ->. reflexivity.
Qed.

(** A successful request replaces or appends, and stores the counters. *)
Lemma fetchBusinesses_settle_resolved params f data st :
  read "Failed to fetch businesses: " f = Js.Resolved data ->
  exec (UseBusinesses.fetchBusinesses_settle params f) st =
  UseBusinesses.State
    (if UseBusinesses.replaces params then page data
     else (UseBusinesses.businesses st ++ page data)%list)
    (UseBusinesses.categories st) false (UseBusinesses.error st)
    (UseBusinesses.or_default (UseBusinesses.body_total data) 0%Z)
    (UseBusinesses.or_default (UseBusinesses.body_has_more data) false).
Proof.
  unfold UseBusinesses.fetchBusinesses_settle. intros ->.
  destruct (UseBusinesses.replaces params); reflexivity.
Qed.

Lemma fetchBusinesses_begin_state `{Engine} params st :
  exec (UseBusinesses.fetchBusinesses_begin params) st =
  UseBusinesses.State (UseBusinesses.businesses st) (UseBusinesses.categories st)
    true None (UseBusinesses.total st) (UseBusinesses.hasMore st).
Proof. reflexivity. Qed.

Lemma fetchBusinesses_split `{Engine} params f st :
  exec (UseBusinesses.fetchBusinesses params f) st =
  exec (UseBusinesses.fetchBusinesses_settle params f)
    (exec (UseBusinesses.fetchBusinesses_begin params) st).
Proof.
  unfold UseBusinesses.fetchBusinesses, exec, bind.
  destruct (UseBusinesses.fetchBusinesses_begin params st). reflexivity.
Qed.

(** C1. When the request of [fetchBusinesses] fails, the hook stores the
    failure's message and clears [loading], but it leaves [businesses] as it
    was: the result set is not reset to the empty list. *)
Theorem fetchBusinesses_failure_keeps_businesses `{Engine} params f err st :
  read "Failed to fetch businesses: " f = Js.Rejected err ->
  let st' := exec (UseBusinesses.fetchBusinesses params f) st in
  UseBusinesses.businesses st' = UseBusinesses.businesses st /\
  UseBusinesses.error st' = Some (Js.message err) /\
  UseBusinesses.loading st' = false.
Proof.
  intros Hf. cbv zeta. rewrite fetchBusinesses_split.
  rewrite (fetchBusinesses_settle_rejected params f err _ Hf).
  repeat split.
Qed.

Lemma fetchBusinesses_failure_keeps_businesses_witness :
  let st' := exec (@UseBusinesses.fetchBusinesses stub_engine
                     [("category", Js.Str "grocery"); ("limit", Js.Num 50)]
                     server_error) showing_one in
  UseBusinesses.businesses st' = [one_business] /\
  UseBusinesses.error st' = Some "Failed to fetch businesses: 500" /\
  UseBusinesses.loading st' = false.
Proof.
  apply (@fetchBusinesses_failure_keeps_businesses stub_engine
           [("category", Js.Str "grocery"); ("limit", Js.Num 50)] server_error
           (Js.Error "Failed to fetch businesses: 500") showing_one).
  reflexivity.
Defined.

(** The operations that delegate to [fetchBusinesses] inherit this. *)
Lemma delegating_failure_keeps_businesses `{Engine} f err st :
  read "Failed to fetch businesses: " f = Js.Rejected err ->
  (forall searchParams,
     UseBusinesses.businesses (exec (UseBusinesses.searchBusinesses searchParams f) st) =
     UseBusinesses.businesses st) /\
  (forall lat lng radius category,
     UseBusinesses.businesses
       (exec (UseBusinesses.getNearbyBusinesses lat lng radius category f) st) =
     UseBusinesses.businesses st).
Proof.
  intros Hf.
  split; intros; unfold UseBusinesses.searchBusinesses, UseBusinesses.getNearbyBusinesses;
    rewrite fetchBusinesses_split;
    now rewrite (fetchBusinesses_settle_rejected _ f err _ Hf).
Qed.

(** [offset === 0 || !offset] on an offset that is 0 or missing, and on one
    above 0. *)
Lemma replaces_zero_or_absent params :
  offset_zero_or_absent params -> UseBusinesses.replaces params = true.
Proof.
  unfold UseBusinesses.replaces. intros [E|E]; rewrite E; reflexivity.
Qed.

Lemma positive_truthy x : (0 <? x)%float = true -> Js.truthy (Js.Num x) = true.
Proof.
  rewrite ltb_spec. unfold Js.truthy, is_zero, is_nan. rewrite !eqb_spec.
  change (Prim2SF 0) with (S754_zero false). change (Prim2SF zero) with (S754_zero false).
  destruct (Prim2SF x) as [s|[]| |[] m e]; try discriminate; try reflexivity.
  intros _. unfold SFeqb, SFcompare.
  now rewrite Z.compare_refl, Pos.compare_cont_refl.
Qed.

Lemma positive_not_zero x : (0 <? x)%float = true -> (x =? 0)%float = false.
Proof.
  rewrite ltb_spec, eqb_spec. change (Prim2SF 0) with (S754_zero false).
  destruct (Prim2SF x) as [s|[]| |[] m e]; try discriminate; reflexivity.
Qed.

Lemma replaces_positive params :
  offset_positive params -> UseBusinesses.replaces params = false.
Proof.
  unfold UseBusinesses.replaces. intros [x [E Hx]]. rewrite E.
  rewrite (positive_truthy x Hx). cbn [Js.strict_eq negb orb].
  rewrite (positive_not_zero x Hx). reflexivity.
Qed.

(** Appending keeps the ids distinct exactly when both parts have distinct
    ids and share none. *)
Lemma NoDup_ids_app (prev next : list business) :
  NoDup (ids (prev ++ next)) <->
  NoDup (ids prev) /\ NoDup (ids next) /\
  (forall i, In i (ids prev) -> ~ In i (ids next)).
Proof.
  unfold ids. rewrite map_app.
  induction (map id prev) as [|a l IH]; cbn [app].
  - split.
    + intros Hn. repeat split; [constructor|exact Hn|intros i []].
    + intros [_ [Hn _]]. exact Hn.
  - split.
    + intros Hn. inversion Hn as [|? ? Hnotin Hrest]; subst.
      apply IH in Hrest as [Hl [Hn' Hdisj]].
      repeat split; auto.
      * constructor; auto. intros Hin. apply Hnotin, in_or_app. now left.
      * intros i [<-|Hi]; auto. intros Hin. apply Hnotin, in_or_app. now right.
    + intros [Hl [Hn' Hdisj]]. inversion Hl as [|? ? Hnotin Hrest]; subst.
      constructor.
      * intros Hin. apply in_app_or in Hin as [Hin|Hin]; auto.
        apply (Hdisj a); [now left|exact Hin].
      * apply IH. repeat split; auto. intros i Hi. apply Hdisj. now right.
Qed.

(** C2, amended. After a successful [fetchBusinesses], [businesses] is the
    returned page when [offset] is 0 or missing, and the previous list
    followed by the page when [offset] is above 0.  The hook removes nothing:
    the appended list has distinct ids exactly when the previous list and
    the page have distinct ids and no id in common. *)
Theorem fetchBusinesses_success_pagination `{Engine} params f data st :
  read "Failed to fetch businesses: " f = Js.Resolved data ->
  let st' := exec (UseBusinesses.fetchBusinesses params f) st in
  (offset_zero_or_absent params -> UseBusinesses.businesses st' = page data) /\
  (offset_positive params ->
   UseBusinesses.businesses st' = (UseBusinesses.businesses st ++ page data)%list /\
   (NoDup (ids (UseBusinesses.businesses st')) <->
    NoDup (ids (UseBusinesses.businesses st)) /\ NoDup (ids (page data)) /\
    (forall i, In i (ids (UseBusinesses.businesses st)) -> ~ In i (ids (page data))))).
Proof.
  intros Hf. cbv zeta. rewrite fetchBusinesses_split.
  rewrite (fetchBusinesses_settle_resolved params f data _ Hf).
  cbn [UseBusinesses.businesses]. split.
  - intros Hz. now rewrite (replaces_zero_or_absent params Hz).
  - intros Hp. rewrite (replaces_positive params Hp).
    rewrite fetchBusinesses_begin_state. cbn [UseBusinesses.businesses].
    split; [reflexivity|apply NoDup_ids_app].
Qed.

Lemma fetchBusinesses_success_pagination_witness :
  let st' := exec (@UseBusinesses.fetchBusinesses stub_engine second_page_params
                     (Answered (Response 200 (Js.Resolved fresh_page)))) showing_one in
  UseBusinesses.businesses st' = [one_business; another_business] /\
  (NoDup (ids (UseBusinesses.businesses st')) <->
   NoDup (ids [one_business]) /\ NoDup (ids [another_business]) /\
   (forall i, In i (ids [one_business]) -> ~ In i (ids [another_business]))).
Proof.
  destruct (@fetchBusinesses_success_pagination stub_engine second_page_params
              (Answered (Response 200 (Js.Resolved fresh_page))) fresh_page
              showing_one eq_refl) as [_ Happend].
  apply Happend. exists 1%float. split; reflexivity.
Defined.

(** C2 as stated fails: appending the shifted page at offset 1 puts id 1 in
    the list twice, although the list before and the page each have distinct
    ids. *)
Lemma fetchBusinesses_append_duplicates :
  ~ pagination_claim showing_one second_page_params shifted_page.
Proof.
  unfold pagination_claim. intros [_ Happend].
  destruct Happend as [_ Hnodup].
  - exists 1%float. split; reflexivity.
  - assert (NoDup (ids [one_business])) as Hone.
    { constructor; [intros []|constructor]. }
    specialize (Hnodup Hone Hone).
    inversion Hnodup as [|? ? Hnotin _]; subst.
    apply Hnotin. now left.
Qed.

(** ** The loading protocol *)

Lemma fetchBusinesses_settle_loading params f st :
  UseBusinesses.loading (exec (UseBusinesses.fetchBusinesses_settle params f) st) = false.
Proof.
  destruct (read "Failed to fetch businesses: " f) as [data|err] eqn:Hf.
  - now rewrite (fetchBusinesses_settle_resolved params f data st Hf).
  - now rewrite (fetchBusinesses_settle_rejected params f err st Hf).
Qed.

Lemma fetchCategories_settle_loading f st :
  UseBusinesses.loading (exec (UseBusinesses.fetchCategories_settle f) st) =
  UseBusinesses.loading st.
Proof.
  unfold UseBusinesses.fetchCategories_settle.
  destruct (read "Failed to fetch categories: " f); reflexivity.
Qed.

Lemma refreshBusinesses_settle_loading {A : Type} category (f : fetched A) st :
  UseBusinesses.loading (exec (UseBusinesses.refreshBusinesses_settle category f) st) =
  UseBusinesses.loading st.
Proof.
  unfold UseBusinesses.refreshBusinesses_settle.
  destruct (read "Failed to refresh businesses: " f); reflexivity.
Qed.

(** C6, amended. The operations that load the result set ([fetchStores],
    [searchStores], [getNearbyStores]; [fetchBusinesses] for any parameters,
    hence [searchBusinesses] and [getNearbyBusinesses]) and the geolocation
    operation set [loading] and clear [error] before the request and unset
    [loading] when it settles, whether it succeeds or fails.
    [fetchCategories] and [refreshBusinesses] only clear [error] before the
    request and never change [loading]; [getBusinessStats] changes nothing. *)
Theorem loading_protocol `{Engine} :
  (follows_protocol UseStores.loading UseStores.error
     UseStores.begin UseStores.fetchStores_settle /\
   follows_protocol UseStores.loading UseStores.error
     UseStores.begin UseStores.searchStores_settle /\
   follows_protocol UseStores.loading UseStores.error
     UseStores.begin UseStores.getNearbyStores_settle) /\
  (forall params,
     follows_protocol UseBusinesses.loading UseBusinesses.error
       (UseBusinesses.fetchBusinesses_begin params)
       (UseBusinesses.fetchBusinesses_settle params)) /\
  follows_protocol UseGeolocation.loading UseGeolocation.error
    UseGeolocation.getCurrentLocation_begin UseGeolocation.getCurrentLocation_settle /\
  (forall st,
     let st' := exec UseBusinesses.fetchCategories_begin st in
     UseBusinesses.loading st' = UseBusinesses.loading st /\
     UseBusinesses.error st' = None) /\
  (forall f st,
     UseBusinesses.loading (exec (UseBusinesses.fetchCategories_settle f) st) =
     UseBusinesses.loading st) /\
  (forall st,
     let st' := exec UseBusinesses.refreshBusinesses_begin st in
     UseBusinesses.loading st' = UseBusinesses.loading st /\
     UseBusinesses.error st' = None) /\
  (forall category (f : fetched UseBusinesses.body) st,
     UseBusinesses.loading (exec (UseBusinesses.refreshBusinesses_settle category f) st) =
     UseBusinesses.loading st) /\
  (forall (f : fetched UseBusinesses.body) st,
     exec (UseBusinesses.getBusinessStats f) st = st).
Proof.
  repeat match goal with |- _ /\ _ => split end.
  - split; [intros st; split; reflexivity | intros [r|e] st; reflexivity].
  - split; [intros st; split; reflexivity | intros [r|e] st; reflexivity].
  - split; [intros st; split; reflexivity | intros [r|e] st; reflexivity].
  - intros params. split.
    + intros st. split; reflexivity.
    + intros f st. apply fetchBusinesses_settle_loading.
  - split; [intros st; split; reflexivity | intros [r|e] st; reflexivity].
  - intros st. split; reflexivity.
  - intros f st. apply fetchCategories_settle_loading.
  - intros st. split; reflexivity.
  - intros category f st. apply refreshBusinesses_settle_loading.
  - intros f st. reflexivity.
Qed.

(** C6 as stated fails on [fetchCategories]: started while nothing is
    loading, it issues its request with [loading] still false. *)
Lemma fetchCategories_skips_loading :
  ~ follows_protocol UseBusinesses.loading UseBusinesses.error
      UseBusinesses.fetchCategories_begin UseBusinesses.fetchCategories_settle.
Proof.
  intros [Hbegin _]. destruct (Hbegin UseBusinesses.initial) as [Hloading _].
  discriminate Hloading.
Qed.

(** ** Geolocation failures *)

Ltac case_code c :=
  unfold kind_of_code, UseGeolocation.errorMessage, GoogleMapsService.errorMessage,
    PERMISSION_DENIED, POSITION_UNAVAILABLE, TIMEOUT;
  destruct (c =? 1)%Z; [|destruct (c =? 2)%Z; [|destruct (c =? 3)%Z]].

Lemma hook_messages_by_kind c c' :
  UseGeolocation.errorMessage c = UseGeolocation.errorMessage c' <->
  kind_of_code c = kind_of_code c'.
Proof.
  case_code c; case_code c'; split; intros E; try reflexivity; discriminate E.
Qed.

Lemma service_messages_by_kind c c' :
  GoogleMapsService.errorMessage c = GoogleMapsService.errorMessage c' <->
  kind_of_code c = kind_of_code c'.
Proof.
  case_code c; case_code c'; split; intros E; try reflexivity; discriminate E.
Qed.

(** C9. Both geolocation implementations give each of the four failure kinds
    (permission denied, position unavailable, timeout, unknown) its own
    message: two codes get the same message exactly when they are of the same
    kind.  The hook stores that message in [error], drops the location and
    clears [loading]; no message is empty or the bare word "failed". *)
Theorem geolocation_failures_distinct :
  (forall c c',
     UseGeolocation.errorMessage c = UseGeolocation.errorMessage c' <->
     kind_of_code c = kind_of_code c') /\
  (forall c c',
     GoogleMapsService.errorMessage c = GoogleMapsService.errorMessage c' <->
     kind_of_code c = kind_of_code c') /\
  (forall c st,
     exec (UseGeolocation.getCurrentLocation (PositionError c)) st =
     UseGeolocation.State None false (Some (UseGeolocation.errorMessage c))) /\
  (forall c st,
     exec (UseGeolocation.getCurrentLocation_service (PositionError c)) st =
     UseGeolocation.State None false (Some (GoogleMapsService.errorMessage c))) /\
  (forall c,
     Js.is_empty (UseGeolocation.errorMessage c) = false /\
     Js.is_empty (GoogleMapsService.errorMessage c) = false /\
     UseGeolocation.errorMessage c <> "failed" /\
     GoogleMapsService.errorMessage c <> "failed").
Proof.
  split; [exact hook_messages_by_kind|].
  split; [exact service_messages_by_kind|].
  split; [reflexivity|]. split; [reflexivity|].
  intros c. case_code c; repeat split; discriminate.
Qed.

(** ** The list views *)

(** C4, amended. A render shows exactly one of four things: the loading
    view, the error view, the "no results" view or the rows.  With an empty
    result set it is always one of the first three: [BusinessList] shows
    loading when [loading], else the error when one is set, else "no
    results"; [StoreList] shows the error first, then loading, then "no
    results".  With a non-empty result set both show the error when one is
    set and the rows otherwise.  So "no results" is shown exactly when the
    result set is empty, nothing is loading and no error is set. *)
Theorem list_views_states rows loading error total hasMore userLocation :
  let b := BusinessList.render (BusinessList.Props rows loading error total hasMore) in
  let s := StoreList.body
             (StoreList.render
                (StoreList.Props rows loading error total hasMore userLocation)) in
  match rows with
  | [] =>
      b = (if loading then Loading
           else match shown_error error with
                | Some msg => ErrorMessage msg
                | None => EmptyState
                end) /\
      s = match shown_error error with
          | Some msg => ErrorMessage msg
          | None => if loading then Loading else EmptyState
          end /\
      degraded b = true /\ degraded s = true
  | _ :: _ =>
      b = match shown_error error with
          | Some msg => ErrorMessage msg
          | None => Items rows (if hasMore then Some loading else None)
          end /\
      s = b
  end /\
  (b = EmptyState <-> rows = [] /\ loading = false /\ shown_error error = None) /\
  (s = EmptyState <-> rows = [] /\ loading = false /\ shown_error error = None).
Proof.
  cbv zeta. unfold BusinessList.render, StoreList.render.
  cbn [BusinessList.loading BusinessList.businesses BusinessList.error
       BusinessList.hasMore StoreList.loading StoreList.stores StoreList.error
       StoreList.hasMore StoreList.total].
  destruct rows as [|r rows], loading, (shown_error error) as [msg|];
    cbn [is_nil andb negb StoreList.body degraded];
    repeat split; try reflexivity; try discriminate;
    try (intros [? [? ?]]; discriminate).
Qed.

(** C4 as stated fails: a render with one business, not loading and without
    error, shows the rows, which is none of the three degraded views. *)
Lemma BusinessList_rows_not_degraded :
  degraded (BusinessList.render
              (BusinessList.Props [one_business] false None 1 false)) = false /\
  degraded (StoreList.body
              (StoreList.render
                 (StoreList.Props [one_business] false None 1 false None))) = false.
Proof. split; reflexivity. Qed.

(** ** App.js: the "Near Me" handler *)

Lemma getCurrentLocation_exec ev st :
  exec (UseGeolocation.getCurrentLocation ev) st =
  match UseGeolocation.locate ev with
  | Js.Resolved p => UseGeolocation.State (Some p) false None
  | Js.Rejected err => UseGeolocation.State None false (Some (Js.message err))
  end.
Proof. destruct ev; reflexivity. Qed.

Lemma exec_bind {S A B : Type} (m : M S A) (k : A -> M S B) st :
  exec (bind m k) st = exec (k (eval m st)) (exec m st).
Proof. unfold exec, eval, bind. now destruct (m st). Qed.

Lemma inGeolocation_exec {A : Type} (m : M UseGeolocation.state A) st :
  exec (App.inGeolocation m) st =
  App.State (App.businessHook st) (exec m (App.geolocationHook st))
    (App.mapCenter st) (App.mapZoom st) (App.activeCategory st) (App.sent st).
Proof.
  unfold exec, App.inGeolocation. now destruct (m (App.geolocationHook st)).
Qed.

Lemma inBusinesses_exec {A : Type} (m : M UseBusinesses.state A) st :
  exec (App.inBusinesses m) st =
  App.State (exec m (App.businessHook st)) (App.geolocationHook st)
    (App.mapCenter st) (App.mapZoom st) (App.activeCategory st) (App.sent st).
Proof.
  unfold exec, App.inBusinesses. now destruct (m (App.businessHook st)).
Qed.

(** A fetch made by the component sends the query of its parameters and
    runs the hook's operation on the hook's state. *)
Lemma App_fetchBusinesses_exec `{Engine} params f st :
  exec (App.fetchBusinesses params f) st =
  App.State (exec (UseBusinesses.fetchBusinesses params f) (App.businessHook st))
    (App.geolocationHook st) (App.mapCenter st) (App.mapZoom st)
    (App.activeCategory st) (App.sent st ++ [UseBusinesses.queryParams params])%list.
Proof.
  unfold App.fetchBusinesses. rewrite !exec_bind, !inBusinesses_exec.
  rewrite fetchBusinesses_split. reflexivity.
Qed.

(** C10. The handler created by the render of state [st] works with the
    location stored in [st], not with the position its own call of
    [getCurrentLocation] obtains.  When [st] stores no location, the handler
    completes the geolocation request (a position the platform delivers is
    stored) but sends no request, leaves the business hook alone and does not
    move or zoom the map.  When [st] stores a location, the one query sent
    and the new map centre are built from that stored location, whatever the
    platform has just delivered. *)
Theorem handleLocationSearch_uses_stored_location `{Engine} st radius ev f :
  let st' := exec (App.rendered_handleLocationSearch st radius ev f) st in
  App.geolocationHook st' =
    match ev with
    | Position p => UseGeolocation.State (Some p) false None
    | Unsupported =>
        UseGeolocation.State None false
          (Some "Geolocation is not supported by this browser")
    | PositionError c =>
        UseGeolocation.State None false (Some (UseGeolocation.errorMessage c))
    end /\
  match UseGeolocation.location (App.geolocationHook st) with
  | None =>
      App.sent st' = App.sent st /\
      App.businessHook st' = App.businessHook st /\
      App.mapCenter st' = App.mapCenter st /\
      App.mapZoom st' = App.mapZoom st
  | Some stored =>
      App.sent st' =
        (App.sent st ++
         [UseBusinesses.queryParams
            (UseBusinesses.getNearbyBusinesses_params
               (Js.Num (lat stored)) (Js.Num (lng stored))
               (Js.Num (match radius with Some r => r | None => 5000 end / 1000)%float)
               (Js.Str (App.activeCategory st)))])%list /\
      App.mapCenter st' = (lat stored, lng stored) /\
      App.mapZoom st' = 14%float
  end.
Proof.
  cbv zeta. unfold App.rendered_handleLocationSearch, App.handleLocationSearch.
  rewrite exec_bind, inGeolocation_exec, getCurrentLocation_exec.
  destruct (UseGeolocation.location (App.geolocationHook st)) as [stored|].
  - unfold App.getNearbyBusinesses.
    rewrite !exec_bind, App_fetchBusinesses_exec.
    split; [|repeat split].
    destruct ev; reflexivity.
  - split; [|repeat split].
    destruct ev; reflexivity.
Qed.

(** The first click on "Near Me" after start-up: the position arrives and is
    stored, and nothing is asked of the server. *)
Example near_me_first_click :
  let p := MkPosition 35.9 14.5 20 in
  let st' := exec (@App.rendered_handleLocationSearch stub_engine App.initial
                     (Some 5000%float) (Position p)
                     (Answered (Response 200 (Js.Resolved fresh_page))))
                  App.initial in
  UseGeolocation.location (App.geolocationHook st') = Some p /\
  App.sent st' = [] /\
  App.mapCenter st' = App.mapCenter App.initial.
Proof. repeat split. Qed.

(** ** The outgoing query *)

Section Query.
Context `{Engine}.

(** What one entry of [params] contributes to the query. *)
Lemma appendEntry_app q entry :
  UseBusinesses.appendEntry q entry = (q ++ UseBusinesses.appendEntry [] entry)%list.
Proof.
  destruct entry as [key value]. unfold UseBusinesses.appendEntry.
  destruct (UseBusinesses.is_coordinate key).
  - destruct (negb (is_nan (parseFloat value))); [reflexivity|now rewrite app_nil_r].
  - destruct (negb (Js.strict_eq value Js.Null) &&
              negb (Js.strict_eq value Js.Undefined) &&
              negb (Js.strict_eq value (Js.Str EmptyString)));
      [reflexivity|now rewrite app_nil_r].
Qed.

Lemma fold_appendEntry params : forall q,
  fold_left UseBusinesses.appendEntry params q =
  (q ++ flat_map (UseBusinesses.appendEntry []) params)%list.
Proof.
  induction params as [|entry params IH]; intros q; cbn [fold_left flat_map].
  - now rewrite app_nil_r.
  - rewrite IH, appendEntry_app, app_assoc. reflexivity.
Qed.

Lemma queryParams_flat_map params :
  UseBusinesses.queryParams params =
  flat_map (UseBusinesses.appendEntry []) params.
Proof. unfold UseBusinesses.queryParams. now rewrite fold_appendEntry. Qed.

Lemma queryParams_app before after :
  UseBusinesses.queryParams (before ++ after)%list =
  (UseBusinesses.queryParams before ++ UseBusinesses.queryParams after)%list.
Proof. rewrite !queryParams_flat_map. apply flat_map_app. Qed.

Lemma absent_cases value :
  Js.absent value = true ->
  value = Js.Null \/ value = Js.Undefined \/ value = Js.Str EmptyString.
Proof.
  destruct value as [| |b|x|s]; cbn; auto; try discriminate.
  destruct s; [auto|discriminate].
Qed.

Lemma present_filter value :
  negb (Js.strict_eq value Js.Null) && negb (Js.strict_eq value Js.Undefined) &&
  negb (Js.strict_eq value (Js.Str EmptyString)) = negb (Js.absent value).
Proof.
  unfold Js.absent.
  destruct (Js.strict_eq value Js.Null), (Js.strict_eq value Js.Undefined),
    (Js.strict_eq value (Js.Str EmptyString)); reflexivity.
Qed.

Section Assumptions.
Hypothesis printed_nonempty : forall x, Number_toString x <> EmptyString.
Hypothesis parse_undefined : is_nan (parseFloat Js.Undefined) = true.
Hypothesis parse_null : is_nan (parseFloat Js.Null) = true.
Hypothesis parse_empty : is_nan (parseFloat (Js.Str EmptyString)) = true.

Lemma absent_not_a_number value :
  Js.absent value = true -> is_nan (parseFloat value) = true.
Proof.
  intros Ha. destruct (absent_cases value Ha) as [->|[->| ->]]; assumption.
Qed.

Lemma toString_nonempty value :
  Js.absent value = false -> toString value <> EmptyString.
Proof.
  destruct value as [| |[]|x|s]; cbn; try discriminate; auto.
  destruct s; [discriminate|]. intros _. discriminate.
Qed.

(** An absent value contributes nothing, under any key. *)
Lemma appendEntry_absent key value :
  Js.absent value = true -> UseBusinesses.appendEntry [] (key, value) = [].
Proof.
  intros Ha. unfold UseBusinesses.appendEntry.
  destruct (UseBusinesses.is_coordinate key).
  - now rewrite (absent_not_a_number value Ha).
  - now rewrite present_filter, Ha.
Qed.

(** What an entry contributes is one pair with a non-empty text. *)
Lemma appendEntry_sent key value k text :
  In (k, text) (UseBusinesses.appendEntry [] (key, value)) ->
  k = key /\ text <> EmptyString /\ Js.absent value = false /\
  (if UseBusinesses.is_coordinate key
   then is_nan (parseFloat value) = false /\ text = Number_toString (parseFloat value)
   else text = toString value).
Proof.
  unfold UseBusinesses.appendEntry.
  destruct (UseBusinesses.is_coordinate key).
  - destruct (is_nan (parseFloat value)) eqn:Hnan; cbn; [intros []|].
    intros [E|[]]. inversion E; subst. repeat split; auto.
    destruct (Js.absent value) eqn:Ha; [|reflexivity].
    rewrite (absent_not_a_number value Ha) in Hnan. discriminate.
  - rewrite present_filter.
    destruct (Js.absent value) eqn:Ha; cbn; [intros []|].
    intros [E|[]]. inversion E; subst. repeat split; auto.
    now apply toString_nonempty.
Qed.

End Assumptions.
End Query.

(** What the search form hands over holds no undefined, null or empty value:
    the four optional fields appear only when their input is non-empty, and
    the radius is always a number. *)
Lemma searchParams_present `{Engine} f key value :
  In (key, value) (SearchFilters.searchParams f) -> Js.absent value = false.
Proof.
  destruct f as [q c mr mp r ex].
  unfold SearchFilters.searchParams, SearchFilters.searchParams_literal,
    SearchFilters.deleteUndefined.
  cbn [SearchFilters.query SearchFilters.category SearchFilters.min_rating
       SearchFilters.max_price_level SearchFilters.radius].
  destruct q as [|q0 q], c as [|c0 c], mr as [|m0 mr], mp as [|p0 mp];
    cbn -[parseFloat parseInt PrimFloat.div];
    intros Hin;
    repeat match goal with
           | Hin : _ \/ _ |- _ => destruct Hin as [Hin|Hin]
           | Hin : (_, _) = (_, _) |- _ => inversion Hin; subst; clear Hin
           | Hin : False |- _ => destruct Hin
           end;
    reflexivity.
Qed.

(** C5. In the query [fetchBusinesses] sends, every parameter has a
    non-empty text and comes from an entry of [params] whose value is neither
    undefined, null nor the empty string; an entry with such a value can be
    dropped from [params] without changing the query.  A latitude or
    longitude is sent only when [parseFloat] of its value is a number, and
    then as that number.  The object built by the search form holds no
    undefined, null or empty value either.  The engine is assumed to print
    every number as a non-empty text and to parse undefined, null and the
    empty string to NaN. *)
Theorem query_omits_absent `{Engine} :
  (forall x, Number_toString x <> EmptyString) ->
  is_nan (parseFloat Js.Undefined) = true ->
  is_nan (parseFloat Js.Null) = true ->
  is_nan (parseFloat (Js.Str EmptyString)) = true ->
  (forall params key text,
     In (key, text) (UseBusinesses.queryParams params) ->
     text <> EmptyString /\
     exists value,
       In (key, value) params /\ Js.absent value = false /\
       (if UseBusinesses.is_coordinate key
        then is_nan (parseFloat value) = false /\
             text = Number_toString (parseFloat value)
        else text = toString value)) /\
  (forall before key value after,
     Js.absent value = true ->
     UseBusinesses.queryParams (before ++ (key, value) :: after)%list =
     UseBusinesses.queryParams (before ++ after)%list) /\
  (forall before key value after,
     UseBusinesses.is_coordinate key = true ->
     is_nan (parseFloat value) = true ->
     UseBusinesses.queryParams (before ++ (key, value) :: after)%list =
     UseBusinesses.queryParams (before ++ after)%list) /\
  (forall f key value,
     In (key, value) (SearchFilters.searchParams f) -> Js.absent value = false).
Proof.
  intros Hprint Hundef Hnull Hempty. split; [|split; [|split]].
  - intros params key text Hin.
    rewrite queryParams_flat_map in Hin.
    apply in_flat_map in Hin as [[k v] [Hp Hin]].
    apply (appendEntry_sent Hprint Hundef Hnull Hempty k v) in Hin
      as [-> [Htext [Ha Hsent]]].
    split; [exact Htext|]. exists v. auto.
  - intros before key value after Ha.
    rewrite !queryParams_app.
    change ((key, value) :: after) with ([(key, value)] ++ after)%list.
    rewrite queryParams_app. f_equal.
    rewrite (queryParams_flat_map [(key, value)]). cbn [flat_map].
    now rewrite (appendEntry_absent Hundef Hnull Hempty key value Ha).
  - intros before key value after Hc Hnan.
    rewrite !queryParams_app.
    change ((key, value) :: after) with ([(key, value)] ++ after)%list.
    rewrite queryParams_app. f_equal.
    rewrite (queryParams_flat_map [(key, value)]). cbn [flat_map].
    unfold UseBusinesses.appendEntry. now rewrite Hc, Hnan.
  - intros f key value. apply searchParams_present.
Qed.

Lemma query_omits_absent_witness :
  @UseBusinesses.queryParams stub_engine
    ([("query", Js.Str "lidl")] ++
     ("min_rating", Js.Str EmptyString) :: [("limit", Js.Num 50)])%list =
  @UseBusinesses.queryParams stub_engine
    ([("query", Js.Str "lidl")] ++ [("limit", Js.Num 50)])%list.
Proof.
  pose proof (@query_omits_absent stub_engine
                ltac:(intros x E; discriminate E) eq_refl eq_refl eq_refl)
    as [_ [Hdrop _]].
  apply Hdrop. reflexivity.
Defined.
(** * Part III: properties of the surrounding code *)

(** ** The API base URL *)

(** X18. The base URL the business hook computes for itself equals the one of
    config.js except on a GitHub Pages build without [REACT_APP_API_URL] and
    outside development: there config.js gives the configured or default
    back end, while the hook falls back to [http://localhost:5000] (the two
    still agree if that very URL is the configured back end). *)
Theorem hook_base_url_agrees_with_config (e : Config.env) :
  Config.hook_API_BASE_URL e = Config.getApiBaseUrl e <->
  Config.is_set (Config.REACT_APP_API_URL e) = true \/
  Config.isDevelopment e = true \/
  Config.isGitHubPages e = false \/
  Config.or_else (Config.REACT_APP_BACKEND_URL e)
    "https://iac-infraengine-backend.azurecontainerapps.io" = "http://localhost:5000".
Proof.
  unfold Config.hook_API_BASE_URL, Config.getApiBaseUrl.
  destruct (Config.REACT_APP_API_URL e) as [[|c url]|]; cbn;
    destruct (Config.isDevelopment e), (Config.isGitHubPages e); cbn;
    split; intros Hx; auto;
    try (destruct Hx as [Hx|[Hx|[Hx|Hx]]]; try discriminate; auto).
Qed.

(** ** The formatters of the business list *)

Lemma prefix_plus_cons p : String.prefix "+" ("+356 " ++ p) = true.
Proof. reflexivity. Qed.

(** X12. [formatPhone] gives nothing exactly for a missing or empty number.
    Any number it gives starts with [+]: a number that already does is
    returned unchanged, any other gets [+356 ] in front, and formatting a
    formatted number changes nothing. *)
Theorem formatPhone_international phone :
  (BusinessListFormat.formatPhone phone = None <->
   phone = None \/ phone = Some EmptyString) /\
  (forall shown,
     BusinessListFormat.formatPhone phone = Some shown ->
     String.prefix "+" shown = true /\
     BusinessListFormat.formatPhone (Some shown) = Some shown /\
     exists p,
       phone = Some p /\
       shown = if String.prefix "+" p then p else "+356 " ++ p).
Proof.
  split.
  - destruct phone as [[|c p]|]; cbn [BusinessListFormat.formatPhone Js.is_empty];
      split; auto; try discriminate.
    intros [Hx|Hx]; discriminate Hx.
  - intros shown.
    destruct phone as [[|c p]|]; cbn [BusinessListFormat.formatPhone Js.is_empty];
      try discriminate.
    destruct (String.prefix "+" (String c p)) eqn:Hp; intros Hs;
      injection Hs as <-.
    + split; [exact Hp|]. split.
      * cbn [BusinessListFormat.formatPhone Js.is_empty]. now rewrite Hp.
      * exists (String c p). now rewrite Hp.
    + split; [reflexivity|]. split; [reflexivity|].
      exists (String c p). now rewrite Hp.
Qed.

Module BusinessListFormatFacts.
Import BusinessListFormat.

Ltac by_cases_on c := destruct c as [[] [] [] [] [] [] [] []]; reflexivity.

Lemma toUpperCase_word c : is_word (toUpperCase c) = is_word c.
Proof. by_cases_on c. Qed.

Lemma toUpperCase_twice c : toUpperCase (toUpperCase c) = toUpperCase c.
Proof. by_cases_on c. Qed.

Lemma toUpperCase_underscore c :
  Ascii.eqb (toUpperCase c) "_" = Ascii.eqb c "_".
Proof. by_cases_on c. Qed.

Lemma replaceUnderscores_none s : no_underscore (replaceUnderscores s) = true.
Proof.
  induction s as [|c s IH]; cbn; [reflexivity|].
  rewrite IH. destruct (Ascii.eqb c "_") eqn:E; [reflexivity|now rewrite E].
Qed.

Lemma replaceUnderscores_fixed s :
  no_underscore s = true -> replaceUnderscores s = s.
Proof.
  induction s as [|c s IH]; cbn; [reflexivity|].
  intros Hs. apply andb_prop in Hs as [Hc Hs].
  rewrite (IH Hs). now destruct (Ascii.eqb c "_").
Qed.

Lemma capitalizeWords_none s : forall b,
  no_underscore s = true -> no_underscore (capitalizeWords b s) = true.
Proof.
  induction s as [|c s IH]; intros b; cbn; [reflexivity|].
  intros Hs. apply andb_prop in Hs as [Hc Hs].
  rewrite (IH _ Hs), andb_true_r.
  destruct (is_word c && negb b); [now rewrite toUpperCase_underscore|exact Hc].
Qed.

Lemma capitalizeWords_twice s : forall b,
  capitalizeWords b (capitalizeWords b s) = capitalizeWords b s.
Proof.
  induction s as [|c s IH]; intros b; cbn; [reflexivity|].
  destruct (is_word c && negb b) eqn:E.
  - rewrite toUpperCase_word, E, toUpperCase_twice, IH. reflexivity.
  - rewrite E, IH. reflexivity.
Qed.

Lemma replaceUnderscores_length s :
  String.length (replaceUnderscores s) = String.length s.
Proof. induction s as [|c s IH]; cbn; congruence. Qed.

Lemma capitalizeWords_length s : forall b,
  String.length (capitalizeWords b s) = String.length s.
Proof. induction s as [|c s IH]; intros b; cbn; [reflexivity|now rewrite IH]. Qed.

End BusinessListFormatFacts.

(** X13. [formatBusinessType] shows the first type of the array, or nothing
    when there is no array or it is empty.  The text shown has the length of
    that type and no underscore, and it is already in the form the function
    produces: formatting it again changes nothing. *)
Theorem formatBusinessType_shape businessType :
  match BusinessListFormat.formatBusinessType businessType with
  | None => businessType = None \/ businessType = Some []
  | Some shown =>
      (exists first rest,
         businessType = Some (first :: rest) /\
         String.length shown = String.length first) /\
      BusinessListFormat.no_underscore shown = true /\
      BusinessListFormat.formatBusinessType (Some [shown]) = Some shown
  end.
Proof.
  destruct businessType as [[|first rest]|]; cbn [BusinessListFormat.formatBusinessType]; auto.
  repeat split.
  - exists first, rest. split; [reflexivity|].
    now rewrite BusinessListFormatFacts.capitalizeWords_length,
      BusinessListFormatFacts.replaceUnderscores_length.
  - apply BusinessListFormatFacts.capitalizeWords_none,
      BusinessListFormatFacts.replaceUnderscores_none.
  - f_equal.
    rewrite BusinessListFormatFacts.replaceUnderscores_fixed.
    + apply BusinessListFormatFacts.capitalizeWords_twice.
    + apply BusinessListFormatFacts.capitalizeWords_none,
        BusinessListFormatFacts.replaceUnderscores_none.
Qed.

(** The type of a grocery store, as shown. *)
Example formatBusinessType_grocery :
  BusinessListFormat.formatBusinessType (Some ["grocery_or_supermarket"; "food"]) =
  Some "Grocery Or Supermarket".
Proof. reflexivity. Qed.

(** ** Plain objects: reading after writing *)

Module JsFacts.

Lemma get_set_same o k v : Js.get (Js.set o k v) k = v.
Proof.
  induction o as [|[k' v'] o IH]; cbn.
  - now rewrite String.eqb_refl.
  - destruct (String.eqb k k') eqn:E; cbn; rewrite E; [reflexivity|exact IH].
Qed.

Lemma get_set_other o k v k' :
  k <> k' -> Js.get (Js.set o k v) k' = Js.get o k'.
Proof.
  intros Hne. induction o as [|[k0 v0] o IH]; cbn.
  - apply String.eqb_neq in Hne. rewrite String.eqb_sym in Hne. now rewrite Hne.
  - destruct (String.eqb k k0) eqn:E; cbn.
    + apply String.eqb_eq in E. subst k0.
      destruct (String.eqb k' k) eqn:E'; [|reflexivity].
      apply String.eqb_eq in E'. congruence.
    + now rewrite IH.
Qed.

(** A key the source does not have keeps the target's value. *)
Lemma get_spread_absent src : forall target k,
  ~ In k (Js.keys src) -> Js.get (Js.spread target src) k = Js.get target k.
Proof.
  unfold Js.spread.
  induction src as [|[k0 v0] src IH]; intros target k Hk; cbn; [reflexivity|].
  rewrite IH.
  - apply get_set_other. intros ->. apply Hk. now left.
  - intros Hin. apply Hk. now right.
Qed.

(** A key of the source gets the source's value. *)
Lemma get_spread_present src : forall target k v,
  NoDup (Js.keys src) -> In (k, v) src -> Js.get (Js.spread target src) k = v.
Proof.
  unfold Js.spread.
  induction src as [|[k0 v0] src IH]; intros target k v Hnd Hin; [destruct Hin|].
  cbn in Hnd. inversion Hnd as [|? ? Hnotin Hnd']; subst.
  destruct Hin as [E|Hin]; cbn [fold_left fst snd].
  - inversion E; subst.
    change (fold_left (fun o kv => Js.set o (fst kv) (snd kv)) src (Js.set target k v))
      with (Js.spread (Js.set target k v) src).
    rewrite get_spread_absent by exact Hnotin. apply get_set_same.
  - now apply IH.
Qed.

End JsFacts.

(** ** The parameters of the business requests *)

(** X6. [searchBusinesses] starts from [offset: 0, limit: 50] and lets the
    caller's keys win: a key the caller gives is passed on with the caller's
    value, [offset] included.  Without an [offset] key of the caller the fetch
    has replace semantics; with an [offset] above 0 it appends, the reset
    notwithstanding. *)
Theorem searchBusinesses_defaults_overridable (searchParams : Js.object) :
  let params := UseBusinesses.searchBusinesses_params searchParams in
  (forall k v, NoDup (Js.keys searchParams) -> In (k, v) searchParams ->
     Js.get params k = v) /\
  (~ In "offset" (Js.keys searchParams) ->
     Js.get params "offset" = Js.Num 0 /\ UseBusinesses.replaces params = true) /\
  (~ In "limit" (Js.keys searchParams) -> Js.get params "limit" = Js.Num 50) /\
  (forall x, NoDup (Js.keys searchParams) -> In ("offset", Js.Num x) searchParams ->
     (0 <? x)%float = true -> UseBusinesses.replaces params = false).
Proof.
  cbv zeta. unfold UseBusinesses.searchBusinesses_params.
  split; [|split; [|split]].
  - intros k v Hnd Hin. now apply JsFacts.get_spread_present.
  - intros Hno.
    assert (Js.get (Js.spread [("offset", Js.Num 0); ("limit", Js.Num 50)] searchParams)
              "offset" = Js.Num 0) as E
      by (rewrite JsFacts.get_spread_absent by exact Hno; reflexivity).
    split; [exact E|]. unfold UseBusinesses.replaces. now rewrite E.
  - intros Hno. rewrite JsFacts.get_spread_absent by exact Hno. reflexivity.
  - intros x Hnd Hin Hx. apply replaces_positive. exists x. split; [|exact Hx].
    now apply JsFacts.get_spread_present.
Qed.

(** X7. The parameters of [getNearbyBusinesses] always carry [offset: 0] and
    [limit: 100], so the fetch has replace semantics; an undefined radius
    becomes 5; the category is a parameter exactly when it is truthy. *)
Theorem getNearbyBusinesses_params_shape (lat lng radius category : Js.value) :
  let params := UseBusinesses.getNearbyBusinesses_params lat lng radius category in
  Js.get params "latitude" = lat /\
  Js.get params "longitude" = lng /\
  Js.get params "radius" =
    (if Js.strict_eq radius Js.Undefined then Js.Num 5 else radius) /\
  Js.get params "limit" = Js.Num 100 /\
  Js.get params "offset" = Js.Num 0 /\
  UseBusinesses.replaces params = true /\
  Js.get params "category" = (if Js.truthy category then category else Js.Undefined) /\
  (In "category" (Js.keys params) <-> Js.truthy category = true).
Proof.
  cbv zeta. unfold UseBusinesses.getNearbyBusinesses_params.
  destruct category as [| |[]|x|[|c s]]; cbn [Js.strict_eq Js.truthy Js.is_empty negb].
  all: try (destruct (negb (is_zero x || is_nan x)) eqn:Hx).
  all: cbn; repeat split; try reflexivity; try discriminate; auto.
  all: try (intros [E|[E|[E|[E|[E|[]]]]]]; discriminate E).
  all: intros _; do 5 right; now left.
Qed.

(** ** The search form *)

Section SearchForm.
Context `{Engine}.

Ltac split_filters f :=
  destruct f as [q c mr mp r ex];
  unfold SearchFilters.searchParams, SearchFilters.searchParams_literal,
    SearchFilters.deleteUndefined;
  cbn [SearchFilters.query SearchFilters.category SearchFilters.min_rating
       SearchFilters.max_price_level SearchFilters.radius];
  destruct q as [|q0 q], c as [|c0 c], mr as [|m0 mr], mp as [|p0 mp];
  cbn -[parseFloat parseInt PrimFloat.div].

Lemma searchParams_values f :
  let sp := SearchFilters.searchParams f in
  Js.get sp "query" =
    (if Js.is_empty (SearchFilters.query f) then Js.Undefined
     else Js.Str (SearchFilters.query f)) /\
  Js.get sp "category" =
    (if Js.is_empty (SearchFilters.category f) then Js.Undefined
     else Js.Str (SearchFilters.category f)) /\
  Js.get sp "min_rating" =
    (if Js.is_empty (SearchFilters.min_rating f) then Js.Undefined
     else Js.Num (parseFloat (Js.Str (SearchFilters.min_rating f)))) /\
  Js.get sp "max_price_level" =
    (if Js.is_empty (SearchFilters.max_price_level f) then Js.Undefined
     else Js.Num (parseInt (Js.Str (SearchFilters.max_price_level f)))) /\
  Js.get sp "radius" =
    Js.Num (parseInt (Js.Str (SearchFilters.radius f)) / 1000)%float.
Proof. cbv zeta. split_filters f; repeat split. Qed.

Lemma searchParams_keys f :
  NoDup (Js.keys (SearchFilters.searchParams f)) /\
  incl (Js.keys (SearchFilters.searchParams f))
       ["query"; "category"; "min_rating"; "max_price_level"; "radius"].
Proof.
  split_filters f; split;
    try (repeat constructor; cbn; intuition discriminate);
    intros k Hin; cbn in Hin |- *; intuition.
Qed.

Lemma searchParams_present_keys f :
  let sp := SearchFilters.searchParams f in
  (In "query" (Js.keys sp) <-> Js.is_empty (SearchFilters.query f) = false) /\
  (In "category" (Js.keys sp) <-> Js.is_empty (SearchFilters.category f) = false) /\
  (In "min_rating" (Js.keys sp) <-> Js.is_empty (SearchFilters.min_rating f) = false) /\
  (In "max_price_level" (Js.keys sp) <->
     Js.is_empty (SearchFilters.max_price_level f) = false) /\
  In "radius" (Js.keys sp).
Proof.
  cbv zeta. split_filters f; cbn [Js.is_empty];
    repeat split;
    try (intros Hx; try reflexivity; try discriminate Hx;
         cbn in Hx |- *; intuition discriminate);
    cbn; intuition.
Qed.

(** X10. The object the search form hands to [onSearch] has, at most once
    each, only the keys query, category, min_rating, max_price_level and
    radius.  Each of the first four is a key of the object exactly when its
    input is non-empty, and then holds the input (as text, or parsed by
    [parseFloat] and [parseInt]); the radius is always a key, in kilometres.
    The "hide closed stores" checkbox never reaches it: toggling it leaves the
    object unchanged. *)
Theorem searchParams_shape f :
  let sp := SearchFilters.searchParams f in
  ((In "query" (Js.keys sp) <-> Js.is_empty (SearchFilters.query f) = false) /\
   (In "category" (Js.keys sp) <-> Js.is_empty (SearchFilters.category f) = false) /\
   (In "min_rating" (Js.keys sp) <->
      Js.is_empty (SearchFilters.min_rating f) = false) /\
   (In "max_price_level" (Js.keys sp) <->
      Js.is_empty (SearchFilters.max_price_level f) = false) /\
   In "radius" (Js.keys sp)) /\
  (Js.get sp "query" =
     (if Js.is_empty (SearchFilters.query f) then Js.Undefined
      else Js.Str (SearchFilters.query f)) /\
   Js.get sp "category" =
     (if Js.is_empty (SearchFilters.category f) then Js.Undefined
      else Js.Str (SearchFilters.category f)) /\
   Js.get sp "min_rating" =
     (if Js.is_empty (SearchFilters.min_rating f) then Js.Undefined
      else Js.Num (parseFloat (Js.Str (SearchFilters.min_rating f)))) /\
   Js.get sp "max_price_level" =
     (if Js.is_empty (SearchFilters.max_price_level f) then Js.Undefined
      else Js.Num (parseInt (Js.Str (SearchFilters.max_price_level f)))) /\
   Js.get sp "radius" =
     Js.Num (parseInt (Js.Str (SearchFilters.radius f)) / 1000)%float) /\
  NoDup (Js.keys sp) /\
  incl (Js.keys sp) ["query"; "category"; "min_rating"; "max_price_level"; "radius"] /\
  (forall checked,
     SearchFilters.searchParams
       (SearchFiltersForm.handleFilterChange
          (SearchFiltersForm.ChangeExcludeClosed checked) f) = sp).
Proof.
  cbv zeta. split; [apply searchParams_present_keys|].
  split; [apply searchParams_values|].
  split; [apply searchParams_keys|]. split; [apply searchParams_keys|].
  intros checked. destruct f; reflexivity.
Qed.

(** X11. "Clear filters" puts the form back into its initial state for the
    active category, after which the button is no longer rendered; the
    category never makes the button appear, whatever it is set to. *)
Theorem clearFilters_hides_button activeCategory :
  SearchFiltersForm.clearFilters activeCategory = SearchFilters.initial activeCategory /\
  SearchFiltersForm.hasFilters (SearchFiltersForm.clearFilters activeCategory) = false /\
  (forall f value,
     SearchFiltersForm.hasFilters
       (SearchFiltersForm.handleFilterChange (SearchFiltersForm.ChangeCategory value) f) =
     SearchFiltersForm.hasFilters f) /\
  (forall f,
     SearchFiltersForm.hasFilters f = false <->
     SearchFilters.query f = EmptyString /\
     SearchFilters.min_rating f = EmptyString /\
     SearchFilters.max_price_level f = EmptyString /\
     SearchFilters.radius f = "5000" /\
     SearchFilters.exclude_closed f = true).
Proof.
  split; [reflexivity|]. split; [reflexivity|]. split; [intros f value; now destruct f|].
  intros [q c mr mp r ex]. unfold SearchFiltersForm.hasFilters.
  cbn [SearchFilters.query SearchFilters.min_rating SearchFilters.max_price_level
       SearchFilters.radius SearchFilters.exclude_closed].
  destruct q as [|q0 q], mr as [|m0 mr], mp as [|p0 mp], ex;
    cbn [Js.is_empty negb orb]; rewrite ?orb_true_r, ?orb_false_r;
    split; try discriminate;
    try (intros [? [? [? [? ?]]]]; discriminate).
  - intros Hr. apply negb_false_iff, String.eqb_eq in Hr. auto.
  - intros [_ [_ [_ [-> _]]]]. reflexivity.
Qed.

End SearchForm.

(** ** The requests the component makes *)

Section AppRequests.
Context `{Engine}.

(** A parameter of the query comes from a key of [params]. *)
Lemma queryParams_keys params k text :
  In (k, text) (UseBusinesses.queryParams params) -> In k (Js.keys params).
Proof.
  rewrite queryParams_flat_map. intros Hin.
  apply in_flat_map in Hin as [[k0 v0] [Hp Hin]].
  assert (k = k0) as ->.
  { unfold UseBusinesses.appendEntry in Hin.
    destruct (UseBusinesses.is_coordinate k0).
    - destruct (negb (is_nan (parseFloat v0))); cbn in Hin; [|destruct Hin].
      destruct Hin as [E|[]]. now inversion E.
    - destruct (negb (Js.strict_eq v0 Js.Null) && negb (Js.strict_eq v0 Js.Undefined) &&
                negb (Js.strict_eq v0 (Js.Str EmptyString))); cbn in Hin; [|destruct Hin].
      destruct Hin as [E|[]]. now inversion E. }
  unfold Js.keys. apply in_map_iff. now exists (k0, v0).
Qed.

Lemma App_fetchBusinesses_resolved params f data st :
  read "Failed to fetch businesses: " f = Js.Resolved data ->
  App.businessHook (exec (App.fetchBusinesses params f) st) =
  UseBusinesses.State
    (if UseBusinesses.replaces params then page data
     else (UseBusinesses.businesses (App.businessHook st) ++ page data)%list)
    (UseBusinesses.categories (App.businessHook st)) false None
    (UseBusinesses.or_default (UseBusinesses.body_total data) 0%Z)
    (UseBusinesses.or_default (UseBusinesses.body_has_more data) false).
Proof.
  intros Hf. rewrite App_fetchBusinesses_exec. cbn [App.businessHook].
  rewrite fetchBusinesses_split.
  now rewrite (fetchBusinesses_settle_resolved params f data _ Hf).
Qed.

(** X8. Loading a category (on start and on every category change) sends a
    query with the category and the limit but no offset parameter.  Run on its
    own it is the start of that fetch followed by its end.  When the response
    arrives and is a success, in whatever state the hook is by then (other
    requests may have started or ended meanwhile), the list becomes the
    returned page and [loading] false, while [error] stays as it is at that
    moment: a success does not clear an error that another request has set. *)
Theorem loadInitialData_replaces activeCategory f data st :
  read "Failed to fetch businesses: " f = Js.Resolved data ->
  let params := [("category", Js.Str activeCategory); ("limit", Js.Num 50)] in
  let q := UseBusinesses.queryParams params in
  let st' := exec (App.loadInitialData activeCategory f) st in
  App.sent st' = (App.sent st ++ [q])%list /\
  (forall text, ~ In ("offset", text) q) /\
  App.businessHook st' =
    exec (UseBusinesses.fetchBusinesses_settle params f)
      (exec (UseBusinesses.fetchBusinesses_begin params) (App.businessHook st)) /\
  (forall arriving,
     let after := exec (UseBusinesses.fetchBusinesses_settle params f) arriving in
     UseBusinesses.businesses after = page data /\
     UseBusinesses.loading after = false /\
     UseBusinesses.error after = UseBusinesses.error arriving /\
     UseBusinesses.categories after = UseBusinesses.categories arriving).
Proof.
  intros Hf. cbv zeta. unfold App.loadInitialData.
  rewrite exec_bind.
  change (exec (ret tt) ?s) with s.
  rewrite App_fetchBusinesses_exec. cbn [App.sent App.businessHook].
  split; [reflexivity|].
  split.
  - intros text Hin. apply queryParams_keys in Hin.
    cbn in Hin. intuition discriminate.
  - split; [apply fetchBusinesses_split|].
    intros arriving.
    rewrite (fetchBusinesses_settle_resolved _ f data arriving Hf). repeat split.
Qed.

Lemma form_search_params_values activeCategory f :
  let params := AppView.form_search_params activeCategory f in
  Js.get params "category" = Js.Str activeCategory /\
  Js.get params "offset" = Js.Num 0 /\
  Js.get params "limit" = Js.Num 50 /\
  Js.get params "query" =
    (if Js.is_empty (SearchFilters.query f) then Js.Undefined
     else Js.Str (SearchFilters.query f)) /\
  UseBusinesses.replaces params = true.
Proof.
  cbv zeta. unfold AppView.form_search_params, UseBusinesses.searchBusinesses_params.
  destruct f as [q c mr mp r ex].
  unfold SearchFilters.searchParams, SearchFilters.searchParams_literal,
    SearchFilters.deleteUndefined.
  cbn [SearchFilters.query SearchFilters.category SearchFilters.min_rating
       SearchFilters.max_price_level SearchFilters.radius].
  destruct q as [|q0 q], c as [|c0 c], mr as [|m0 mr], mp as [|p0 mp];
    repeat split.
Qed.

(** X9. A search from the form is made for the component's active category,
    whatever category the form itself holds, with offset 0 and limit 50; on
    success the list is replaced by the returned page. *)
Theorem handleSearch_restarts activeCategory form f data st :
  read "Failed to fetch businesses: " f = Js.Resolved data ->
  let params := AppView.form_search_params activeCategory form in
  let st' := exec (App.handleSearch activeCategory (SearchFilters.searchParams form) f) st in
  Js.get params "category" = Js.Str activeCategory /\
  Js.get params "offset" = Js.Num 0 /\
  Js.get params "limit" = Js.Num 50 /\
  App.sent st' = (App.sent st ++ [UseBusinesses.queryParams params])%list /\
  UseBusinesses.businesses (App.businessHook st') = page data.
Proof.
  intros Hf. cbv zeta.
  destruct (form_search_params_values activeCategory form)
    as [Hc [Ho [Hl [_ Hr]]]].
  split; [exact Hc|]. split; [exact Ho|]. split; [exact Hl|].
  unfold App.handleSearch, App.searchBusinesses.
  rewrite exec_bind. change (exec (ret tt) ?s) with s.
  fold (AppView.form_search_params activeCategory form).
  split; [now rewrite App_fetchBusinesses_exec|].
  rewrite (App_fetchBusinesses_resolved _ f data st Hf).
  cbn [UseBusinesses.businesses]. now rewrite Hr.
Qed.

End AppRequests.

Lemma loadInitialData_replaces_witness :
  let params := [("category", Js.Str "supermarkets"); ("limit", Js.Num 50)] in
  let arriving :=
    UseBusinesses.State [one_business] [] true
      (Some "Failed to fetch categories: 500") 1 false in
  let after :=
    exec (UseBusinesses.fetchBusinesses_settle params
            (Answered (Response 200 (Js.Resolved fresh_page)))) arriving in
  UseBusinesses.businesses after = [another_business] /\
  UseBusinesses.loading after = false /\
  UseBusinesses.error after = Some "Failed to fetch categories: 500".
Proof.
  cbv zeta.
  destruct (@loadInitialData_replaces stub_engine "supermarkets"
              (Answered (Response 200 (Js.Resolved fresh_page))) fresh_page
              App.initial eq_refl)
    as [_ [_ [_ Hsettle]]].
  destruct (Hsettle (UseBusinesses.State [one_business] [] true
                       (Some "Failed to fetch categories: 500") 1 false))
    as [Hb [Hl [He _]]].
  split; [exact Hb|]. split; [exact Hl | exact He].
Defined.

Lemma handleSearch_restarts_witness :
  let st' := exec (@App.handleSearch stub_engine "supermarkets"
                     (@SearchFilters.searchParams stub_engine
                        (SearchFilters.initial "supermarkets"))
                     (Answered (Response 200 (Js.Resolved fresh_page))))
               App.initial in
  UseBusinesses.businesses (App.businessHook st') = [another_business].
Proof.
  cbv zeta.
  destruct (@handleSearch_restarts stub_engine "supermarkets"
              (SearchFilters.initial "supermarkets")
              (Answered (Response 200 (Js.Resolved fresh_page))) fresh_page
              App.initial eq_refl)
    as [_ [_ [_ [_ Hb]]]].
  exact Hb.
Defined.

(** ** The store hook *)

Lemma or_string_nonempty s fallback :
  Js.is_empty fallback = false -> Js.is_empty (Js.or_string s fallback) = false.
Proof. destruct s; cbn; auto. Qed.

(** X1. When the request of a store operation is rejected, the hook ends
    with no stores, [loading] false and an error text that is never empty
    (the error's own message, or the operation's fallback when that is
    empty); [total] and [hasMore] keep the values of the last success. *)
Theorem useStores_failure err st :
  let outcomes :=
    [exec (UseStores.fetchStores_settle (Js.Rejected err)) st;
     exec (UseStores.searchStores_settle (Js.Rejected err)) st;
     exec (UseStores.getNearbyStores_settle (Js.Rejected err)) st] in
  Forall
    (fun st' =>
       UseStores.stores st' = [] /\
       UseStores.loading st' = false /\
       (exists msg,
          UseStores.error st' = Some msg /\ Js.is_empty msg = false /\
          (Js.is_empty (Js.message err) = false -> msg = Js.message err)) /\
       UseStores.total st' = UseStores.total st /\
       UseStores.hasMore st' = UseStores.hasMore st)
    outcomes.
Proof.
  cbv zeta. repeat constructor; cbn [UseStores.error];
    eexists; (split; [reflexivity|]);
    (split; [now apply or_string_nonempty|]);
    unfold Js.or_string; now intros ->.
Qed.

(** ** The business hook *)

(** X3. A failed [fetchBusinesses] hands its caller an empty page with total 0
    and no further page, but in the hook it changes [error] and [loading]
    only: the list, the categories, [total] and [hasMore] stay as they were. *)
Theorem fetchBusinesses_failure_result `{Engine} params f err st :
  read "Failed to fetch businesses: " f = Js.Rejected err ->
  eval (UseBusinesses.fetchBusinesses params f) st = UseBusinesses.empty_body /\
  exec (UseBusinesses.fetchBusinesses params f) st =
  UseBusinesses.State (UseBusinesses.businesses st) (UseBusinesses.categories st)
    false (Some (Js.message err)) (UseBusinesses.total st) (UseBusinesses.hasMore st).
Proof.
  intros Hf. split.
  - unfold eval, UseBusinesses.fetchBusinesses, UseBusinesses.fetchBusinesses_settle, bind.
    cbn. now rewrite Hf.
  - rewrite fetchBusinesses_split.
    now rewrite (fetchBusinesses_settle_rejected params f err _ Hf).
Qed.

Lemma fetchBusinesses_failure_result_witness :
  eval (@UseBusinesses.fetchBusinesses stub_engine second_page_params server_error)
    showing_one = UseBusinesses.empty_body /\
  exec (@UseBusinesses.fetchBusinesses stub_engine second_page_params server_error)
    showing_one =
  UseBusinesses.State [one_business] [] false
    (Some "Failed to fetch businesses: 500") 1 false.
Proof.
  apply (@fetchBusinesses_failure_result stub_engine second_page_params server_error
           (Js.Error "Failed to fetch businesses: 500") showing_one).
  reflexivity.
Defined.

(** X4. A successful [fetchBusinesses] returns the body as received and
    leaves no error and [loading] false, whatever the state before.  A body
    without [businesses], [total] or [has_more] counts as an empty page, total
    0 and no further page. *)
Theorem fetchBusinesses_success_result `{Engine} params f data st :
  read "Failed to fetch businesses: " f = Js.Resolved data ->
  let st' := exec (UseBusinesses.fetchBusinesses params f) st in
  eval (UseBusinesses.fetchBusinesses params f) st = data /\
  UseBusinesses.error st' = None /\
  UseBusinesses.loading st' = false /\
  UseBusinesses.categories st' = UseBusinesses.categories st /\
  UseBusinesses.total st' =
    match UseBusinesses.body_total data with Some n => n | None => 0%Z end /\
  UseBusinesses.hasMore st' =
    match UseBusinesses.body_has_more data with Some b => b | None => false end /\
  (UseBusinesses.body_businesses data = None ->
   UseBusinesses.businesses st' =
     if UseBusinesses.replaces params then [] else UseBusinesses.businesses st).
Proof.
  intros Hf. cbv zeta. split.
  - unfold eval, UseBusinesses.fetchBusinesses, UseBusinesses.fetchBusinesses_settle, bind.
    cbn. rewrite Hf. now destruct (UseBusinesses.replaces params).
  - rewrite fetchBusinesses_split.
    rewrite (fetchBusinesses_settle_resolved params f data _ Hf).
    repeat split.
    intros Hnone. cbn [UseBusinesses.businesses]. unfold page. rewrite Hnone.
    cbn [UseBusinesses.or_default].
    destruct (UseBusinesses.replaces params); [reflexivity|apply app_nil_r].
Qed.

Lemma fetchBusinesses_success_result_witness :
  let f := Answered (Response 200 (Js.Resolved (UseBusinesses.Body None None None))) in
  let st' := exec (@UseBusinesses.fetchBusinesses stub_engine second_page_params f)
               showing_one in
  UseBusinesses.total st' = 0%Z /\
  UseBusinesses.hasMore st' = false /\
  UseBusinesses.businesses st' = [one_business].
Proof.
  cbv zeta.
  destruct (@fetchBusinesses_success_result stub_engine second_page_params
              (Answered (Response 200 (Js.Resolved (UseBusinesses.Body None None None))))
              (UseBusinesses.Body None None None) showing_one eq_refl)
    as [_ [_ [_ [_ [Ht [Hh Hb]]]]]].
  split; [exact Ht|]. split; [exact Hh|]. apply Hb. reflexivity.
Defined.

(** X5. Two replacing fetches in flight at once: the list shown in the end is
    the page of the response that arrives last, even when that is the
    response to the older request, and [loading] is already false once the
    first of the two responses has arrived. *)
Theorem last_response_wins `{Engine} older newer f_older f_newer d_older d_newer st :
  UseBusinesses.replaces older = true ->
  read "Failed to fetch businesses: " f_older = Js.Resolved d_older ->
  read "Failed to fetch businesses: " f_newer = Js.Resolved d_newer ->
  let issued := exec (UseBusinesses.fetchBusinesses_begin newer)
                  (exec (UseBusinesses.fetchBusinesses_begin older) st) in
  let first_back := exec (UseBusinesses.fetchBusinesses_settle newer f_newer) issued in
  let both_back := exec (UseBusinesses.fetchBusinesses_settle older f_older) first_back in
  UseBusinesses.loading issued = true /\
  UseBusinesses.loading first_back = false /\
  UseBusinesses.businesses both_back = page d_older /\
  UseBusinesses.total both_back =
    UseBusinesses.or_default (UseBusinesses.body_total d_older) 0%Z.
Proof.
  intros Hr Ho Hn. cbv zeta.
  rewrite (fetchBusinesses_settle_resolved older f_older d_older _ Ho).
  rewrite (fetchBusinesses_settle_resolved newer f_newer d_newer _ Hn).
  rewrite Hr. repeat split.
Qed.

Lemma last_response_wins_witness :
  let older := [("category", Js.Str "grocery"); ("limit", Js.Num 50)] in
  let newer := [("category", Js.Str "pharmacy"); ("limit", Js.Num 50)] in
  let f_older := Answered (Response 200 (Js.Resolved shifted_page)) in
  let f_newer := Answered (Response 200 (Js.Resolved fresh_page)) in
  let issued := exec (@UseBusinesses.fetchBusinesses_begin stub_engine newer)
                  (exec (@UseBusinesses.fetchBusinesses_begin stub_engine older)
                     UseBusinesses.initial) in
  let first_back := exec (UseBusinesses.fetchBusinesses_settle newer f_newer) issued in
  let both_back := exec (UseBusinesses.fetchBusinesses_settle older f_older) first_back in
  UseBusinesses.loading issued = true /\
  UseBusinesses.loading first_back = false /\
  UseBusinesses.businesses both_back = [one_business] /\
  UseBusinesses.total both_back = 2%Z.
Proof.
  cbv zeta.
  apply (@last_response_wins stub_engine
           [("category", Js.Str "grocery"); ("limit", Js.Num 50)]
           [("category", Js.Str "pharmacy"); ("limit", Js.Num 50)]
           (Answered (Response 200 (Js.Resolved shifted_page)))
           (Answered (Response 200 (Js.Resolved fresh_page)))
           shifted_page fresh_page UseBusinesses.initial);
    reflexivity.
Defined.

(** ** The geolocation hook *)

(** X16. After [getCurrentLocation], in the hook with its own promise and in
    the one that asks the map service, [loading] is false and exactly one of
    [location] and [error] is set: the position the platform delivered, or a
    non-empty message with any earlier location dropped.  [clearLocation]
    then unsets both. *)
Theorem getCurrentLocation_outcome ev st :
  let outcomes := [exec (UseGeolocation.getCurrentLocation ev) st;
                   exec (UseGeolocation.getCurrentLocation_service ev) st] in
  Forall
    (fun st' =>
       UseGeolocation.loading st' = false /\
       match ev with
       | Position p =>
           UseGeolocation.location st' = Some p /\ UseGeolocation.error st' = None
       | _ =>
           UseGeolocation.location st' = None /\
           exists msg, UseGeolocation.error st' = Some msg /\ Js.is_empty msg = false
       end /\
       exec UseGeolocation.clearLocation st' = UseGeolocation.State None false None)
    outcomes.
Proof.
  cbv zeta. destruct ev as [|p|c]; repeat constructor;
    try (eexists; split; [reflexivity|]);
    try reflexivity.
  - unfold UseGeolocation.locate, UseGeolocation.errorMessage,
      PERMISSION_DENIED, POSITION_UNAVAILABLE, TIMEOUT. cbn [Js.message].
    destruct (c =? 1)%Z; [|destruct (c =? 2)%Z; [|destruct (c =? 3)%Z]]; reflexivity.
  - unfold GoogleMapsService.getCurrentLocation, GoogleMapsService.errorMessage,
      PERMISSION_DENIED, POSITION_UNAVAILABLE, TIMEOUT. cbn [Js.message].
    destruct (c =? 1)%Z; [|destruct (c =? 2)%Z; [|destruct (c =? 3)%Z]]; reflexivity.
Qed.

(** ** The sidebar *)

(** X15. In the sidebar of [App] the tab bar and the list get the same error,
    and the tab bar answers it first: whenever an error is set (and the tab
    bar is not in its loading state) the sidebar is the tab bar's error view
    and the list is not rendered at all, so the list's own error view never
    appears under the tabs.  Under the tabs there is the list's loading view,
    its "no results" view or its rows. *)
Theorem sidebar_views st localActiveCategory :
  let b := App.businessHook st in
  match AppView.sidebar st localActiveCategory with
  | CategoryTabs.LoadingState =>
      UseBusinesses.categories b = [] /\ UseBusinesses.loading b = true
  | CategoryTabs.ErrorState msg =>
      shown_error (UseBusinesses.error b) = Some msg
  | CategoryTabs.Tabs tabs shown =>
      shown_error (UseBusinesses.error b) = None /\
      map fst tabs = UseBusinesses.categories b /\
      match shown with
      | ErrorMessage _ => False
      | Loading =>
          UseBusinesses.loading b = true /\ UseBusinesses.businesses b = [] /\
          UseBusinesses.categories b <> []
      | EmptyState =>
          UseBusinesses.loading b = false /\ UseBusinesses.businesses b = []
      | Items rows _ => rows = UseBusinesses.businesses b /\ rows <> []
      end
  end.
Proof.
  cbv zeta. unfold AppView.sidebar, CategoryTabs.render, BusinessList.render.
  cbn [BusinessList.loading BusinessList.businesses BusinessList.error
       BusinessList.hasMore].
  destruct (App.businessHook st) as [rows cats loading error total more].
  cbn [UseBusinesses.categories UseBusinesses.loading UseBusinesses.error
       UseBusinesses.businesses UseBusinesses.total UseBusinesses.hasMore].
  destruct cats as [|cat cats], loading, (shown_error error) as [msg|],
    rows as [|row rows];
    cbn [is_nil andb negb]; repeat split; try discriminate;
    rewrite ?map_map; cbn [fst map]; try (now rewrite map_id).
Qed.

(** After a request that the server answered with an error status, the
    sidebar shows that status in the tab bar's error view, and the
    businesses the hook still holds are not on screen. *)
Corollary sidebar_after_http_error `{Engine} params code json st localActiveCategory :
  ok (Response code json) = false ->
  AppView.sidebar
    (exec (App.fetchBusinesses params (Answered (Response code json))) st)
    localActiveCategory =
  CategoryTabs.ErrorState ("Failed to fetch businesses: " ++ decimal code).
Proof.
  intros Hok. rewrite App_fetchBusinesses_exec.
  unfold AppView.sidebar. cbn [App.businessHook].
  rewrite fetchBusinesses_split.
  rewrite (fetchBusinesses_settle_rejected params _
             (Js.Error ("Failed to fetch businesses: " ++ decimal code)))
    by (unfold read; now rewrite Hok).
  cbn [UseBusinesses.categories UseBusinesses.loading UseBusinesses.error Js.message].
  rewrite andb_false_r. reflexivity.
Qed.

(** ** The map *)

(** X14. Selecting an item sets the map centre to its parsed coordinates
    and the zoom to 16, and changes nothing else of the component's state.
    For every store that has a marker this is the marker's position and
    [MapController] moves the view there.  A store without a marker either
    has a coordinate that parses to 0, and then the view is not moved, or the
    view is moved to a position with a NaN coordinate. *)
Theorem select_centres_on_marker `{Engine} item st :
  let c := (parseFloat (latitude item), parseFloat (longitude item)) in
  exec (AppView.handleItemSelect item) st =
    App.State (App.businessHook st) (App.geolocationHook st) c 16%float
      (App.activeCategory st) (App.sent st) /\
  match OpenStreetMap.markerPosition item with
  | Some p => c = p /\ OpenStreetMap.setsView (Some c) = true
  | None =>
      if OpenStreetMap.setsView (Some c)
      then is_nan (fst c) || is_nan (snd c) = true
      else ((fst c =? 0) || (snd c =? 0))%float = true
  end.
Proof.
  cbv zeta. unfold AppView.handleItemSelect. rewrite exec_bind.
  split; [reflexivity|].
  unfold OpenStreetMap.markerPosition, OpenStreetMap.setsView. cbn [fst snd].
  destruct (is_nan (parseFloat (latitude item))),
    (is_nan (parseFloat (longitude item))),
    (parseFloat (latitude item) =? 0)%float,
    (parseFloat (longitude item) =? 0)%float; cbn; auto.
Qed.


(** ** The mock places *)

Section MockPlacesFacts.
Context `{Engine}.
Import F64.

Lemma mock_distance_same_point lat lng :
  Math_sin 0 = 0%float ->
  (forall x, finite x = true -> unit_range (Math_cos x) = true) ->
  Math_atan2 0 1 = 0%float ->
  valid_lat lat = true -> valid_lng lng = true ->
  MockGoogleMapsService.calculateDistance lat lng lat lng = 0%float.
Proof.
  intros sin_zero cos_range atan2_zero Hlat Hlng.
  unfold MockGoogleMapsService.calculateDistance. cbv zeta.
  rewrite (haversine_same_point lat lng sin_zero cos_range Hlat Hlng).
  change (Math_sqrt 0) with 0%float. change (Math_sqrt (1 - 0)) with 1%float.
  now rewrite atan2_zero.
Qed.

Lemma mockStores_valid store :
  In store MockPlaces.mockStores ->
  valid_lat (MockPlaces.place_lat store) = true /\
  valid_lng (MockPlaces.place_lng store) = true.
Proof.
  unfold MockPlaces.mockStores. cbn [In].
  intros Hin.
  repeat (destruct Hin as [<-|Hin]; [split; reflexivity|]).
  destruct Hin.
Qed.

Lemma leb_nan x : (x <=? nan)%float = false.
Proof.
  rewrite leb_spec. change (Prim2SF nan) with S754_nan.
  now destruct (Prim2SF x).
Qed.

(** X17. The mock nearby search returns mock stores only, each within the
    radius.  Searching from the position of a mock store finds
    that store for every radius from 0 up, and with the default radius; a
    NaN radius finds nothing.  (The engine facts assumed are the ones under
    which a point is at distance 0 from itself.) *)
Theorem searchNearby_finds_own_store :
  Math_sin 0 = 0%float ->
  (forall x, finite x = true -> unit_range (Math_cos x) = true) ->
  Math_atan2 0 1 = 0%float ->
  (forall store radius,
     In store MockPlaces.mockStores -> (0 <=? radius)%float = true ->
     In store (MockPlaces.searchNearby (MockPlaces.place_lat store)
                 (MockPlaces.place_lng store) (Some radius)) /\
     In store (MockPlaces.searchNearby (MockPlaces.place_lat store)
                 (MockPlaces.place_lng store) None)) /\
  (forall lat lng, MockPlaces.searchNearby lat lng (Some nan) = []) /\
  (forall lat lng radius store,
     In store (MockPlaces.searchNearby lat lng (Some radius)) ->
     In store MockPlaces.mockStores /\
     (MockGoogleMapsService.calculateDistance lat lng
        (MockPlaces.place_lat store) (MockPlaces.place_lng store) <=? radius)%float = true).
Proof.
  intros sin_zero cos_range atan2_zero. split; [|split].
  - intros store radius Hin Hr.
    destruct (mockStores_valid store Hin) as [Hlat Hlng].
    unfold MockPlaces.searchNearby.
    split; apply filter_In; (split; [exact Hin|]); cbv zeta;
      rewrite (mock_distance_same_point _ _ sin_zero cos_range atan2_zero Hlat Hlng);
      [exact Hr|reflexivity].
  - intros lat lng. unfold MockPlaces.searchNearby.
    induction MockPlaces.mockStores as [|s l IH]; cbn [filter]; [reflexivity|].
    now rewrite leb_nan.
  - intros lat lng radius store Hin. unfold MockPlaces.searchNearby in Hin.
    apply filter_In in Hin. exact Hin.
Qed.

End MockPlacesFacts.

Lemma searchNearby_finds_own_store_witness :
  let lidl := lidl_place in
  In lidl (@MockPlaces.searchNearby stub_engine (MockPlaces.place_lat lidl)
             (MockPlaces.place_lng lidl) (Some 0%float)).
Proof.
  cbv zeta.
  destruct (@searchNearby_finds_own_store stub_engine eq_refl (fun x _ => eq_refl) eq_refl)
    as [Hown _].
  apply (Hown lidl_place 0%float); [|reflexivity].
  unfold lidl_place, MockPlaces.mockStores. cbn [In]. do 4 right. now left.
Defined.

(** ** Whole numbers as binary64 values *)

Module F64Whole.
Import F64 F64Facts.

Lemma fexp_53 e : (-1074 <= e)%Z -> (fexp prec emax (53 + e) - e = 0)%Z.
Proof. intros He. unfold fexp, emin, prec, emax. lia. Qed.

(** A 53-bit mantissa is kept as it is. *)
Lemma round_aux_exact s m e :
  Z.pos (digits2_pos m) = 53%Z -> (-1074 <= e <= 971)%Z ->
  binary_round_aux prec emax s (Z.pos m) e loc_Exact = S754_finite s m e.
Proof.
  intros Hd He. unfold binary_round_aux, shr_fexp.
  cbn [Zdigits2 shr_record_of_loc]. rewrite Hd, fexp_53 by lia.
  cbn [shr shr_m loc_of_shr_record round_nearest_even Zdigits2 shr_record_of_loc].
  rewrite Hd, fexp_53 by lia. cbn [shr shr_m].
  change (emax - prec)%Z with 971%Z.
  destruct (Z.leb_spec e 971); [reflexivity|lia].
Qed.

Lemma digits2_iter_xO p k :
  digits2_pos (Pos.iter xO p k) = (digits2_pos p + k)%positive.
Proof.
  induction k as [|k IH] using Pos.peano_ind.
  - cbn. now rewrite Pos.add_1_r.
  - rewrite Pos.iter_succ. cbn [digits2_pos]. rewrite IH. lia.
Qed.

(** A positive whole number below [2 ^ 53] is a finite positive float. *)
Lemma whole_positive p :
  (Z.pos p < 2 ^ 53)%Z ->
  exists m e,
    binary_normalize prec emax (Z.pos p) 0 false = S754_finite false m e /\
    valid_binary (S754_finite false m e) = true.
Proof.
  intros Hp.
  assert (Z.pos (digits2_pos p) <= 53)%Z as Hd
    by (apply (Zdigits2_le (Z.pos p) 53); lia).
  cbn [binary_normalize]. unfold binary_round.
  replace (fexp prec emax (Z.pos (digits2_pos p) + 0))
    with (Z.pos (digits2_pos p) - 53)%Z
    by (unfold fexp, emin, prec, emax; lia).
  unfold shl_align.
  destruct (Z.pos (digits2_pos p) - 53 - 0)%Z as [|k|k] eqn:Hk; try lia.
  - exists p, 0%Z. split.
    + apply round_aux_exact; lia.
    + cbn [valid_binary]. unfold bounded, canonical_mantissa.
      replace (Z.pos (digits2_pos p)) with 53%Z by lia. reflexivity.
  - exists (Pos.iter xO p k), (Z.pos (digits2_pos p) - 53)%Z.
    assert (Z.pos (digits2_pos (Pos.iter xO p k)) = 53%Z) as Hd'
      by (rewrite digits2_iter_xO; lia).
    split.
    + apply round_aux_exact; [exact Hd'|lia].
    + cbn [valid_binary]. unfold bounded, canonical_mantissa.
      rewrite Hd'. apply andb_true_intro. split.
      * apply Z.eqb_eq. unfold fexp, emin, prec, emax. lia.
      * apply Z.leb_le. unfold emax, prec. lia.
Qed.

(** The float of a positive whole number is truthy and is not 0. *)
Lemma whole_positive_truthy p :
  (Z.pos p < 2 ^ 53)%Z ->
  let x := SF2Prim (binary_normalize prec emax (Z.pos p) 0 false) in
  Js.truthy (Js.Num x) = true /\ (x =? 0)%float = false.
Proof.
  intros Hp. cbv zeta.
  destruct (whole_positive p Hp) as [m [e [E Hv]]]. rewrite E.
  unfold Js.truthy, is_zero, is_nan. rewrite !eqb_spec.
  rewrite (Prim2SF_SF2Prim _ Hv).
  change (Prim2SF zero) with (S754_zero false).
  change (Prim2SF 0) with (S754_zero false).
  unfold SFeqb, SFcompare. rewrite Z.compare_refl, Pos.compare_cont_refl.
  split; reflexivity.
Qed.

End F64Whole.

(** ** Loading more *)

(** X20. "Load more", created by the render that shows the current list (an
    array, so shorter than [2 ^ 32]), asks for the page at the offset equal
    to the length of the list and on success puts that page after the list:
    nothing shown is dropped, also when the list is empty. *)
Theorem handleLoadMore_appends `{Engine} activeCategory f data st :
  read "Failed to fetch businesses: " f = Js.Resolved data ->
  (Z.of_nat (List.length (UseBusinesses.businesses (App.businessHook st))) < 2 ^ 32)%Z ->
  let shown := UseBusinesses.businesses (App.businessHook st) in
  let st' := exec (App.handleLoadMore activeCategory (List.length shown) f) st in
  UseBusinesses.businesses (App.businessHook st') = (shown ++ page data)%list /\
  UseBusinesses.error (App.businessHook st') = None /\
  List.length (App.sent st') = S (List.length (App.sent st)).
Proof.
  intros Hf Hlen. cbv zeta. unfold App.handleLoadMore.
  rewrite exec_bind. change (exec (ret tt) ?s) with s.
  rewrite (App_fetchBusinesses_resolved _ f data st Hf).
  rewrite App_fetchBusinesses_exec.
  cbn [UseBusinesses.businesses UseBusinesses.error App.sent].
  split; [|split; [reflexivity|]].
  - destruct (UseBusinesses.businesses (App.businessHook st)) as [|b rows] eqn:Hrows.
    + reflexivity.
    + unfold UseBusinesses.replaces.
      cbn [Js.get String.eqb Ascii.eqb Bool.eqb].
      cbn [List.length Z.of_nat] in *.
      assert (Z.pos (Pos.of_succ_nat (List.length rows)) < 2 ^ 53)%Z as Hp.
      { assert (2 ^ 32 < 2 ^ 53)%Z by (apply Z.pow_lt_mono_r; lia). lia. }
      destruct (F64Whole.whole_positive_truthy _ Hp) as [Ht Hz].
      cbn [Js.strict_eq]. rewrite Ht, Hz. reflexivity.
  - rewrite length_app. cbn. lia.
Qed.

Lemma handleLoadMore_appends_witness :
  let st := App.State showing_one UseGeolocation.initial
              (35.8989%float, 14.5146%float) 12%float "grocery" [] in
  let st' := exec (@App.handleLoadMore stub_engine "grocery" 1
                     (Answered (Response 200 (Js.Resolved fresh_page)))) st in
  UseBusinesses.businesses (App.businessHook st') = [one_business; another_business] /\
  UseBusinesses.error (App.businessHook st') = None /\
  List.length (App.sent st') = 1%nat.
Proof.
  cbv zeta.
  apply (@handleLoadMore_appends stub_engine "grocery"
           (Answered (Response 200 (Js.Resolved fresh_page))) fresh_page
           (App.State showing_one UseGeolocation.initial
              (35.8989%float, 14.5146%float) 12%float "grocery" [])).
  - reflexivity.
  - reflexivity.
Defined.

(** ** The mock map and its markers *)

Module MockMapsFacts.
Import MockMaps.

Lemma count_spliceFirst_same marker l :
  count_occ Nat.eq_dec (spliceFirst marker l) marker =
  pred (count_occ Nat.eq_dec l marker).
Proof.
  induction l as [|x l IH]; cbn [spliceFirst count_occ]; [reflexivity|].
  destruct (Nat.eqb_spec x marker) as [->|Hne].
  - destruct (Nat.eq_dec marker marker); [reflexivity|congruence].
  - cbn [count_occ]. destruct (Nat.eq_dec x marker); [congruence|exact IH].
Qed.

Lemma count_spliceFirst_other marker other l :
  other <> marker ->
  count_occ Nat.eq_dec (spliceFirst marker l) other = count_occ Nat.eq_dec l other.
Proof.
  intros Hne. induction l as [|x l IH]; cbn [spliceFirst count_occ]; [reflexivity|].
  destruct (Nat.eqb_spec x marker) as [->|Hx].
  - destruct (Nat.eq_dec marker other); [congruence|reflexivity].
  - cbn [count_occ]. now rewrite IH.
Qed.

Lemma count_push l marker other :
  count_occ Nat.eq_dec (l ++ [marker]) other =
  count_occ Nat.eq_dec l other + (if Nat.eqb marker other then 1 else 0).
Proof.
  rewrite count_occ_app. cbn [count_occ].
  destruct (Nat.eq_dec marker other) as [->|Hne].
  - now rewrite Nat.eqb_refl.
  - apply Nat.eqb_neq in Hne. now rewrite Hne.
Qed.

Lemma empty_consistent : consistent empty.
Proof. split; reflexivity. Qed.

Lemma newMarker_consistent map h :
  consistent h -> consistent (snd (newMarker map h)).
Proof.
  intros [Hcount Hfresh]. unfold newMarker.
  assert (forall k, count_occ Nat.eq_dec (markers h k) (created h) = 0) as Hnew
    by (intros k; rewrite Hcount, (Hfresh (created h)); [reflexivity|lia]).
  destruct map as [k0|]; unfold addMarker, consistent; cbn [snd markers map_ created];
    split.
  - intros marker k. unfold update.
    destruct (Nat.eqb_spec k k0) as [->|Hk].
    + rewrite count_push, Hcount.
      destruct (Nat.eqb_spec marker (created h)) as [->|Hm].
      * rewrite Nat.eqb_refl, (Hfresh (created h)) by lia. now rewrite Nat.eqb_refl.
      * rewrite (proj2 (Nat.eqb_neq (created h) marker)) by congruence. lia.
    + rewrite Hcount.
      destruct (Nat.eqb_spec marker (created h)) as [->|Hm]; [|reflexivity].
      rewrite (Hfresh (created h)) by lia.
      now rewrite (proj2 (Nat.eqb_neq k0 k)) by congruence.
  - intros marker Hge. unfold update.
    destruct (Nat.eqb_spec marker (created h)); [lia|]. apply Hfresh. lia.
  - intros marker k. unfold update. rewrite Hcount.
    destruct (Nat.eqb_spec marker (created h)) as [->|Hm]; [|reflexivity].
    now rewrite (Hfresh (created h)) by lia.
  - intros marker Hge. unfold update.
    destruct (Nat.eqb_spec marker (created h)); [lia|]. apply Hfresh. lia.
Qed.

Lemma setMap_consistent marker map h :
  marker < created h -> consistent h -> consistent (setMap marker map h).
Proof.
  intros Hlt [Hcount Hfresh]. unfold setMap.
  (* After the removal the marker is listed nowhere. *)
  set (h1 := match map_ h marker with
             | Some old => removeMarker old marker h
             | None => h
             end).
  assert (map_ h1 = map_ h /\ created h1 = created h) as [Hmap1 Hcr1]
    by (subst h1; destruct (map_ h marker); split; reflexivity).
  assert (forall k, count_occ Nat.eq_dec (markers h1 k) marker = 0) as Hgone.
  { intros k. subst h1. destruct (map_ h marker) as [old|] eqn:Hold.
    - unfold removeMarker. cbn [markers]. unfold update.
      destruct (Nat.eqb_spec k old) as [->|Hk].
      + rewrite count_spliceFirst_same, Hcount, Hold, Nat.eqb_refl. reflexivity.
      + rewrite Hcount, Hold.
        now rewrite (proj2 (Nat.eqb_neq old k)) by congruence.
    - now rewrite Hcount, Hold. }
  assert (forall other k, other <> marker ->
            count_occ Nat.eq_dec (markers h1 k) other =
            count_occ Nat.eq_dec (markers h k) other) as Hothers.
  { intros other k Hne. subst h1. destruct (map_ h marker) as [old|]; [|reflexivity].
    unfold removeMarker. cbn [markers]. unfold update.
    destruct (Nat.eqb_spec k old) as [->|Hk]; [|reflexivity].
    now apply count_spliceFirst_other. }
  clearbody h1.
  destruct map as [k0|]; unfold addMarker, consistent; cbn [markers map_ created];
    split.
  - intros other k. unfold update.
    destruct (Nat.eqb_spec other marker) as [->|Hne].
    + destruct (Nat.eqb_spec k k0) as [->|Hk].
      * rewrite count_push, Hgone, !Nat.eqb_refl. reflexivity.
      * rewrite Hgone. now rewrite (proj2 (Nat.eqb_neq k0 k)) by congruence.
    + rewrite Hmap1.
      destruct (Nat.eqb_spec k k0) as [->|Hk].
      * rewrite count_push, (Hothers other k0 Hne), Hcount.
        rewrite (proj2 (Nat.eqb_neq marker other)) by congruence. lia.
      * now rewrite (Hothers other k Hne), Hcount.
  - intros other Hge. unfold update. rewrite Hcr1 in Hge.
    destruct (Nat.eqb_spec other marker); [lia|]. rewrite Hmap1. now apply Hfresh.
  - intros other k. unfold update.
    destruct (Nat.eqb_spec other marker) as [->|Hne].
    + apply Hgone.
    + now rewrite Hmap1, (Hothers other k Hne), Hcount.
  - intros other Hge. unfold update. rewrite Hcr1 in Hge.
    destruct (Nat.eqb_spec other marker); [lia|]. rewrite Hmap1. now apply Hfresh.
Qed.

End MockMapsFacts.

(** X19. Markers placed through the [MockMarker] constructor and [setMap]
    keep the mock maps consistent: starting from no objects, after any such
    steps every marker is in the [markers] array of the map its [map] field
    names, exactly once, and in no other array; a marker whose [map] is
    [null] is in none. *)
Theorem mock_markers_consistent :
  MockMaps.consistent MockMaps.empty /\
  (forall map h,
     MockMaps.consistent h -> MockMaps.consistent (snd (MockMaps.newMarker map h))) /\
  (forall marker map h,
     marker < MockMaps.created h -> MockMaps.consistent h ->
     MockMaps.consistent (MockMaps.setMap marker map h)) /\
  (forall marker map h,
     MockMaps.consistent h -> marker < MockMaps.created h ->
     forall k,
       count_occ Nat.eq_dec (MockMaps.markers (MockMaps.setMap marker map h) k) marker =
       match map with
       | Some k' => if Nat.eqb k' k then 1 else 0
       | None => 0
       end).
Proof.
  split; [exact MockMapsFacts.empty_consistent|].
  split; [exact MockMapsFacts.newMarker_consistent|].
  split; [exact MockMapsFacts.setMap_consistent|].
  intros marker map h Hc Hlt k.
  destruct (MockMapsFacts.setMap_consistent marker map h Hlt Hc) as [Hcount _].
  rewrite Hcount.
  unfold MockMaps.setMap.
  destruct map as [k'|]; unfold MockMaps.addMarker; cbn [MockMaps.map_];
    unfold MockMaps.update; now rewrite Nat.eqb_refl.
Qed.

(** ** The categories *)

(** X21. [fetchCategories] touches the category list and [error] only.  When
    the request fails it keeps the categories it had, stores the message and
    returns an empty list.  When it succeeds it stores the categories of the
    body, or none if the body has no such field, and returns that field as it
    came. *)
Theorem fetchCategories_outcome f st :
  let st' := exec (UseBusinesses.fetchCategories f) st in
  let returned := eval (UseBusinesses.fetchCategories f) st in
  UseBusinesses.businesses st' = UseBusinesses.businesses st /\
  UseBusinesses.loading st' = UseBusinesses.loading st /\
  UseBusinesses.total st' = UseBusinesses.total st /\
  UseBusinesses.hasMore st' = UseBusinesses.hasMore st /\
  match read "Failed to fetch categories: " f with
  | Js.Rejected err =>
      UseBusinesses.categories st' = UseBusinesses.categories st /\
      UseBusinesses.error st' = Some (Js.message err) /\
      returned = Some []
  | Js.Resolved field =>
      UseBusinesses.categories st' =
        match field with Some l => l | None => [] end /\
      UseBusinesses.error st' = None /\
      returned = field
  end.
Proof.
  cbv zeta.
  unfold UseBusinesses.fetchCategories, UseBusinesses.fetchCategories_settle,
    UseBusinesses.fetchCategories_begin, exec, eval, bind.
  cbn [UseBusinesses.setError].
  destruct (read "Failed to fetch categories: " f) as [field|err];
    repeat split.
Qed.

(** ** The list while a request is in flight *)




(** ** Refreshing *)

(** X2. A refresh the server accepts changes nothing in the hook but clears
    [error], and hands back the data; the fetch it schedules is the one for
    the refreshed category with limit 50 and offset 0, which has replace
    semantics: once that fetch succeeds the list is the page it returned,
    whatever was shown before. *)
Theorem refreshBusinesses_then_reload `{Engine} {A : Type} category
    (f : fetched A) data f2 data2 st :
  read "Failed to refresh businesses: " f = Js.Resolved data ->
  read "Failed to fetch businesses: " f2 = Js.Resolved data2 ->
  let run := UseBusinesses.refreshBusinesses_begin ;;
             UseBusinesses.refreshBusinesses_settle category f in
  let scheduled := [("category", category); ("limit", Js.Num 50); ("offset", Js.Num 0)] in
  eval run st = Js.Resolved (data, scheduled) /\
  exec run st =
    UseBusinesses.State (UseBusinesses.businesses st) (UseBusinesses.categories st)
      (UseBusinesses.loading st) None (UseBusinesses.total st)
      (UseBusinesses.hasMore st) /\
  UseBusinesses.replaces scheduled = true /\
  UseBusinesses.businesses
    (exec (UseBusinesses.fetchBusinesses scheduled f2) (exec run st)) = page data2.
Proof.
  intros Hf Hf2. cbv zeta.
  unfold UseBusinesses.refreshBusinesses_begin, UseBusinesses.refreshBusinesses_settle,
    exec, eval, bind.
  cbn [UseBusinesses.setError]. rewrite Hf. cbn [ret fst snd].
  split; [reflexivity|]. split; [reflexivity|]. split; [reflexivity|].
  fold (exec (UseBusinesses.fetchBusinesses
                [("category", category); ("limit", Js.Num 50); ("offset", Js.Num 0)] f2)
          (UseBusinesses.State (UseBusinesses.businesses st) (UseBusinesses.categories st)
             (UseBusinesses.loading st) None (UseBusinesses.total st)
             (UseBusinesses.hasMore st))).
  rewrite fetchBusinesses_split.
  now rewrite (fetchBusinesses_settle_resolved _ f2 data2 _ Hf2).
Qed.

Lemma refreshBusinesses_then_reload_witness :
  let run := UseBusinesses.refreshBusinesses_begin ;;
             UseBusinesses.refreshBusinesses_settle (Js.Str "grocery")
               (Answered (Response 200 (Js.Resolved tt))) in
  eval run showing_one =
    Js.Resolved (tt, [("category", Js.Str "grocery"); ("limit", Js.Num 50);
                      ("offset", Js.Num 0)]) /\
  UseBusinesses.businesses
    (exec (@UseBusinesses.fetchBusinesses stub_engine
             [("category", Js.Str "grocery"); ("limit", Js.Num 50); ("offset", Js.Num 0)]
             (Answered (Response 200 (Js.Resolved fresh_page))))
       (exec run showing_one)) = [another_business].
Proof.
  cbv zeta.
  destruct (@refreshBusinesses_then_reload stub_engine unit (Js.Str "grocery")
              (Answered (Response 200 (Js.Resolved tt))) tt
              (Answered (Response 200 (Js.Resolved fresh_page))) fresh_page
              showing_one eq_refl eq_refl)
    as [Hr [_ [_ Hb]]].
  split; [exact Hr | exact Hb].
Defined.
